(** * auto-outfit: the outfit policy and the randomized outfit search

    A shallow embedding of [generate_outfit.py].  The two Python classes
    [OutfitPolicy] and [Outfit] become the modules of the same names; their
    methods become functions that take the object ([self]) as a record and
    return the updated record whenever the method assigns to an attribute.

    Conventions of the embedding:
    - the four piece types (the strings of [Outfit.order], which are also the
      keyword parameters of [is_valid]) are the enumeration [PieceType.t];
    - a dict whose keys are exactly the four piece types
      ([piece_type_to_list], [piece_type_to_piece]) is a function out of
      [PieceType.t], iterated in the insertion order of its dict literal,
      [PieceType.all]; the [outfit] dict of the search, whose keys come and
      go, is a [gmap];
    - the lists of the closet are objects of a store, since the closet, the
      policy and the outfit generator all hold references to the same list
      objects;
    - a raised exception is the [Raise] case of [res]. *)

From Stdlib Require Import ZArith.
From stdpp Require Import gmap strings list fin_maps functions sorting.

(** ** Exceptions *)

Inductive exn : Type :=
| ArgumentTypeError (msg : string)
| Exception (msg : string)
| AttributeError
| TypeError
| ValueError
| KeyError
| IndexError.

Inductive res (A : Type) : Type :=
| Ok (a : A)
| Raise (e : exn).
Arguments Ok {A} a.
Arguments Raise {A} e.

(** Sequencing: an exception raised by the first computation propagates. *)
Global Instance res_bind : MBind res := fun A B k r =>
  match r with
  | Ok a => k a
  | Raise e => Raise e
  end.

(** Python's short-circuit [a and b] on operands that evaluate to booleans:
    [b] is evaluated (and may raise) only when [a] is true. *)
Definition and_then (a : res bool) (b : res bool) : res bool :=
  match a with
  | Ok true => b
  | Ok false => Ok false
  | Raise e => Raise e
  end.

Infix "&&&" := and_then (at level 40, left associativity).

(** ** Pieces *)

Module Attr.
Record t : Type := mk {
  color : string;
  warmth : Z;
  comfort : Z;
  fancy : bool;
  loose : bool }.
End Attr.

Record Piece : Type := mkPiece {
  name : string;
  filename : string;
  attributes : Attr.t }.

(** An optional piece is [None] or a piece.  In [if piece and ...] the first
    is false and the second, a dict with its three keys, is true: the loops
    below skip [None]. *)

(** Truth value of an optional integer option ([None] and [0] are false). *)
Definition truthy_int (o : option Z) : bool :=
  match o with
  | Some n => negb (n =? 0)%Z
  | None => false
  end.

(** Truth value of an optional string option ([None] and the empty string
    are false). *)
Definition truthy_str (o : option string) : bool :=
  match o with
  | Some s => negb (String.eqb s "")
  | None => false
  end.

(** ** Piece types *)

Module PieceType.
Inductive t : Type := top | bottom | jacket | shoe.

(** The key order of the dict literals and of [Outfit.order]. *)
Definition all : list t := [top; bottom; jacket; shoe].

Global Instance eq_dec : EqDecision t.
Proof. solve_decision. Defined.

Definition to_nat (pt : t) : nat :=
  match pt with top => 0 | bottom => 1 | jacket => 2 | shoe => 3 end.

Definition of_nat (n : nat) : option t :=
  match n with
  | 0 => Some top | 1 => Some bottom | 2 => Some jacket | 3 => Some shoe
  | _ => None
  end.

Global Instance countable : Countable t.
Proof.
  apply (inj_countable to_nat of_nat). by intros [].
Defined.
End PieceType.

(** [d.values()] and [d.items()] of a dict over the four piece types. *)
Definition values {V : Type} (d : PieceType.t -> V) : list V :=
  d <$> PieceType.all.

Definition items {V : Type} (d : PieceType.t -> V) : list (PieceType.t * V) :=
  (fun pt => (pt, d pt)) <$> PieceType.all.

(** ** The store of list objects *)

Abbreviation ref := nat.

(** The store holds the list objects; a reference is the position of its
    object.  Objects are never freed, so every reference an object holds is
    allocated; [deref] of anything else is the empty list. *)
Abbreviation store := (list (list Piece)).

Definition deref (σ : store) (r : ref) : list Piece :=
  default [] (σ !! r).

Definition alloc (σ : store) (l : list Piece) : ref * store :=
  (length σ, σ ++ [l]).

(** The closet read from [closet.json]: a dict from the four plural keys to
    list objects. *)
Record Closet : Type := mkCloset {
  tops : ref;
  bottoms : ref;
  jackets : ref;
  shoes : ref }.

(** ** The policy evaluator *)

Module OutfitPolicy.

Record t : Type := mk {
  warmth_level : option Z;
  fancy : bool;
  comfort_level : option Z;
  required_piece : option string;
  piece_type_to_list : PieceType.t -> ref;
  (** [None]: the attribute was never assigned *)
  required_piece_type : option PieceType.t;
  neutral_colors : list string;
  piece_type_to_piece : PieceType.t -> option Piece }.

Definition set_piece_type_to_piece (self : t)
    (d : PieceType.t -> option Piece) : t :=
  mk (warmth_level self) (fancy self) (comfort_level self)
     (required_piece self) (piece_type_to_list self)
     (required_piece_type self) (neutral_colors self) d.

(** [__get_piece_type_from_name]: the first piece type, in dict order,
    whose list has a piece of that name. *)
Fixpoint get_piece_type_from_name_loop (σ : store) (piece_name : string)
    (its : list (PieceType.t * ref)) : res PieceType.t :=
  match its with
  | [] => Raise (ArgumentTypeError
      "Required piece name not found. Make sure the name exists in your closet")
  | (piece_type, pieces) :: rest =>
      if bool_decide
           (0 < length (filter (fun p => name p = piece_name) (deref σ pieces)))
      then Ok piece_type
      else get_piece_type_from_name_loop σ piece_name rest
  end.

Definition get_piece_type_from_name (σ : store)
    (piece_type_to_list : PieceType.t -> ref) (piece_name : string)
    : res PieceType.t :=
  get_piece_type_from_name_loop σ piece_name (items piece_type_to_list).

(** [__init__].  [required_piece_type] is assigned only under
    [if self.required_piece:].  The cache starts as the empty dict, which the
    checks iterate like a dict of four [None]; [is_valid] replaces it before
    any check reads it. *)
Definition init (σ : store) (warmth_level comfort_level : option Z)
    (fancy : bool) (required_piece : option string) (closet : Closet)
    : res t :=
  let piece_type_to_list := fun pt =>
    match pt with
    | PieceType.top => tops closet
    | PieceType.bottom => bottoms closet
    | PieceType.jacket => jackets closet
    | PieceType.shoe => shoes closet
    end in
  required_piece_type ←
    (if truthy_str required_piece
     then pt ← get_piece_type_from_name σ piece_type_to_list
                  (default "" required_piece); Ok (Some pt)
     else Ok None);
  Ok (mk warmth_level fancy comfort_level required_piece piece_type_to_list
         required_piece_type
         ["black"; "white"; "tan"; "gray"; "jeanblue"]
         (fun _ => None)).

(** [__meets_warmth_level] *)
Definition meets_warmth_level (self : t) (bottom jacket : option Piece)
    : bool :=
  match bottom with
  | None => true
  | Some b => bool_decide (Some (Attr.warmth (attributes b)) = warmth_level self)
  end
  &&
  match jacket with
  | None => true
  | Some j => bool_decide (Some (Attr.warmth (attributes j)) = warmth_level self)
  end.

(** [__meets_comfort_level]; comparing an integer with [None] by [<]
    raises [TypeError]. *)
Fixpoint meets_comfort_level_loop (level : option Z)
    (pieces : list (option Piece)) : res bool :=
  match pieces with
  | [] => Ok true
  | None :: rest => meets_comfort_level_loop level rest
  | Some p :: rest =>
      match level with
      | None => Raise TypeError
      | Some l =>
          if (Attr.comfort (attributes p) <? l)%Z then Ok false
          else meets_comfort_level_loop level rest
      end
  end.

Definition meets_comfort_level (self : t) : res bool :=
  meets_comfort_level_loop (comfort_level self)
    (values (piece_type_to_piece self)).

(** [__is_fancy] *)
Fixpoint is_fancy_loop (pieces : list (option Piece)) : bool :=
  match pieces with
  | [] => true
  | None :: rest => is_fancy_loop rest
  | Some p :: rest =>
      if negb (Attr.fancy (attributes p)) then false
      else is_fancy_loop rest
  end.

Definition is_fancy (self : t) : bool :=
  is_fancy_loop (values (piece_type_to_piece self)).

(** [__contains_required_piece_for_piece_type]; reading
    [self.required_piece_type] when it was never assigned raises
    [AttributeError]. *)
Fixpoint contains_required_piece_loop (self : t)
    (its : list (PieceType.t * option Piece)) : res bool :=
  match its with
  | [] => Ok true
  | (_, None) :: rest => contains_required_piece_loop self rest
  | (piece_type, Some p) :: rest =>
      match required_piece_type self with
      | None => Raise AttributeError
      | Some rpt =>
          if bool_decide (rpt = piece_type)
             && bool_decide (Some (name p) ≠ required_piece self)
          then Ok false
          else contains_required_piece_loop self rest
      end
  end.

Definition contains_required_piece_for_piece_type (self : t) : res bool :=
  contains_required_piece_loop self (items (piece_type_to_piece self)).

(** [__is_color_matched] *)
Fixpoint non_neutral_colors (neutral : list string)
    (pieces : list (option Piece)) (colors : list string) : list string :=
  match pieces with
  | [] => colors
  | None :: rest => non_neutral_colors neutral rest colors
  | Some p :: rest =>
      if bool_decide (Attr.color (attributes p) ∉ neutral)
      then non_neutral_colors neutral rest
             (colors ++ [Attr.color (attributes p)])
      else non_neutral_colors neutral rest colors
  end.

Definition is_color_matched (self : t) : bool :=
  let colors :=
    non_neutral_colors (neutral_colors self)
      (values (piece_type_to_piece self)) [] in
  bool_decide (size (list_to_set colors : gset string) ≤ 1).

(** [__has_silhouette] *)
Definition has_silhouette (top bottom : option Piece) : bool :=
  negb
    match top, bottom with
    | Some t, Some b =>
        Attr.loose (attributes t) && Attr.loose (attributes b)
    | _, _ => false
    end.

(** The dict literal of [is_valid]. *)
Definition assignment (top bottom jacket shoe : option Piece)
    : PieceType.t -> option Piece :=
  fun pt =>
    match pt with
    | PieceType.top => top
    | PieceType.bottom => bottom
    | PieceType.jacket => jacket
    | PieceType.shoe => shoe
    end.

(** [is_valid]: the cache [piece_type_to_piece] is overwritten first, then
    the checks run in the order of the [and] chain. *)
Definition is_valid (self : t) (top bottom jacket shoe : option Piece)
    : res bool * t :=
  let self :=
    set_piece_type_to_piece self (assignment top bottom jacket shoe) in
  (Ok (is_color_matched self)
   &&& Ok (has_silhouette top bottom)
   &&& (if negb (truthy_int (warmth_level self)) then Ok true
        else Ok (meets_warmth_level self bottom jacket))
   &&& (if negb (truthy_int (comfort_level self)) then Ok true
        else meets_comfort_level self)
   &&& (if negb (fancy self) then Ok true else Ok (is_fancy self))
   &&& (if negb (truthy_str (required_piece self)) then Ok true
        else contains_required_piece_for_piece_type self),
   self).

End OutfitPolicy.

(** ** The random source *)

(** The generator of the [random] module, as far as [random.sample] uses it:
    an arbitrary sequence of draws and the number of draws consumed. *)
Record Rng : Type := mkRng {
  draws : nat -> nat;
  consumed : nat }.

(** [randbelow(n)]: some number below [n]. *)
Definition randbelow (n : nat) (g : Rng) : nat * Rng :=
  (draws g (consumed g) mod n, mkRng (draws g) (S (consumed g))).

(** The selection loop of [random.sample(population, k)] for
    [k = len(population)], the only way the program calls it.  With [k = n]
    the library always takes its pool branch:
<<
    pool = list(population)
    for i in range(k):
        j = randbelow(n - i)
        result[i] = pool[j]
        pool[j] = pool[n - i - 1]
>>
    [remaining] is [n - i]; [result] is filled from the left, so writing
    position [i] is appending. *)
Fixpoint sample_loop {A : Type} (remaining : nat) (pool result : list A)
    (g : Rng) : list A * Rng :=
  match remaining with
  | 0 => (result, g)
  | S remaining' =>
      let '(j, g) := randbelow remaining g in
      match pool !! j, pool !! remaining' with
      | Some x, Some y =>
          sample_loop remaining' (<[j := y]> pool) (result ++ [x]) g
      | _, _ => (result, g)
      end
  end.

Definition random_sample {A : Type} (population : list A) (k : nat)
    (g : Rng) : list A * Rng :=
  sample_loop k population [] g.

(** What a method can change besides its object: the store and the random
    generator. *)
Record World : Type := mkWorld {
  heap : store;
  rng : Rng }.

(** ** The outfit search *)

(** [l.pop()]: the last element is removed and returned. *)
Definition pop {A : Type} (l : list A) : option (list A * A) :=
  match reverse l with
  | [] => None
  | x :: r => Some (reverse r, x)
  end.

(** [l.index(x)]: the position of the first occurrence. *)
Fixpoint index (x : PieceType.t) (l : list PieceType.t) : option nat :=
  match l with
  | [] => None
  | y :: l' => if decide (y = x) then Some 0 else S <$> index x l'
  end.

Module Outfit.

Record t : Type := mk {
  policy : OutfitPolicy.t;
  order : list PieceType.t;
  piece_type_to_list : PieceType.t -> ref }.

Definition set_policy (self : t) (p : OutfitPolicy.t) : t :=
  mk p (order self) (piece_type_to_list self).

Definition set_piece_type_to_list (self : t) (d : PieceType.t -> ref) : t :=
  mk (policy self) (order self) d.

(** [__init__] *)
Definition init (policy : OutfitPolicy.t) (closet : Closet) : t :=
  mk policy
     [PieceType.top; PieceType.bottom; PieceType.jacket; PieceType.shoe]
     (fun pt =>
        match pt with
        | PieceType.top => tops closet
        | PieceType.bottom => bottoms closet
        | PieceType.jacket => jackets closet
        | PieceType.shoe => shoes closet
        end).

(** One iteration of the loop of [__randomize_piece_lists]: the list the
    key is bound to is sampled into a new list object, and the key is
    rebound to it. *)
Definition randomize_piece_list (sw : t * World) (piece_type : PieceType.t)
    : t * World :=
  let '(self, w) := sw in
  let list := deref (heap w) (piece_type_to_list self piece_type) in
  let '(sampled, g) := random_sample list (length list) (rng w) in
  let '(r, σ) := alloc (heap w) sampled in
  (set_piece_type_to_list self (<[piece_type := r]> (piece_type_to_list self)),
   mkWorld σ g).

(** [__randomize_piece_lists] *)
Definition randomize_piece_lists (self : t) (w : World) : t * World :=
  foldl randomize_piece_list (self, w) PieceType.all.

(** [__get_next_piece_type] *)
Definition get_next_piece_type (self : t) (curr_piece_type : PieceType.t)
    : res PieceType.t :=
  match index curr_piece_type (order self) with
  | None => Raise ValueError
  | Some i =>
      match order self !! (i + 1) with
      | Some pt => Ok pt
      | None => Raise IndexError
      end
  end.

(** The variables of [__get_valid_outfit] that live across iterations of
    its [while] loop; [self] is among them because [is_valid] assigns to
    an attribute of [self.policy]. *)
Record loop_state : Type := mkLoop {
  this : t;
  to_explore : list (PieceType.t * Piece);
  outfit : gmap PieceType.t Piece }.

Inductive step : Type :=
| Continue (s : loop_state)
| Return (r : res (gmap PieceType.t Piece)) (self : t).

(** [self.policy.is_valid] called with [outfit] unpacked into keyword
    arguments: a key that is absent from [outfit] leaves its parameter at
    the default [None]. *)
Definition is_valid_outfit (p : OutfitPolicy.t)
    (outfit : gmap PieceType.t Piece) : res bool * OutfitPolicy.t :=
  OutfitPolicy.is_valid p
    (outfit !! PieceType.top) (outfit !! PieceType.bottom)
    (outfit !! PieceType.jacket) (outfit !! PieceType.shoe).

(** The test and the body of the [while] loop; falling out of the loop
    raises the exception that follows it. *)
Definition loop_body (σ : store) (s : loop_state) : step :=
  match pop (to_explore s) with
  | None =>
      Return (Raise (Exception
        "Outfit cannot be generated with existing closet and constraints"))
        (this s)
  | Some (to_explore, (piece_type, piece)) =>
      let outfit := <[piece_type := piece]> (outfit s) in
      let '(valid, p) := is_valid_outfit (policy (this s)) outfit in
      let self := set_policy (this s) p in
      match valid with
      | Raise e => Return (Raise e) self
      | Ok true =>
          if decide (size outfit = length (order self))
          then Return (Ok outfit) self
          else
            match get_next_piece_type self piece_type with
            | Raise e => Return (Raise e) self
            | Ok next_piece_type =>
                Continue (mkLoop self
                  (to_explore ++
                   ((fun p => (next_piece_type, p)) <$>
                    deref σ (piece_type_to_list self next_piece_type)))
                  outfit)
            end
      | Ok false =>
          Continue (mkLoop self to_explore (delete piece_type outfit))
      end
  end.

(** The [while] loop, run for at most [fuel] iterations; [None] when the
    fuel runs out before the loop ends. *)
Fixpoint while (fuel : nat) (σ : store) (s : loop_state)
    : option (res (gmap PieceType.t Piece) * t) :=
  match fuel with
  | 0 => None
  | S fuel' =>
      match loop_body σ s with
      | Return r self => Some (r, self)
      | Continue s' => while fuel' σ s'
      end
  end.

(** [__get_valid_outfit] *)
Definition get_valid_outfit (fuel : nat) (σ : store) (self : t)
    : option (res (gmap PieceType.t Piece) * t) :=
  match order self !! 0 with
  | None => Some (Raise IndexError, self)
  | Some first_piece_type =>
      while fuel σ
        (mkLoop self
           ((fun p => (first_piece_type, p)) <$>
            deref σ (piece_type_to_list self first_piece_type))
           ∅)
  end.

(** The comprehensions of [generate]: a field of the piece of every piece
    type, in the order of [self.order]; [outfit[piece]] of an absent key
    raises [KeyError]. *)
Definition outfit_field (f : Piece -> string) (order : list PieceType.t)
    (outfit : gmap PieceType.t Piece) : res (list string) :=
  foldr (fun piece acc =>
           match outfit !! piece with
           | None => Raise KeyError
           | Some p => rest ← acc; Ok (f p :: rest)
           end)
        (Ok []) order.

(** [generate], up to the display: the printed piece names and the file
    names handed to [__display_outfit]. *)
Definition generate (fuel : nat) (self : t) (w : World)
    : option (res (list string * list string)) :=
  let '(self, w) := randomize_piece_lists self w in
  found ← get_valid_outfit fuel (heap w) self;
  Some (outfit ← found.1;
        names ← outfit_field name (order self) outfit;
        filenames ← outfit_field filename (order self) outfit;
        Ok (names, filenames)).

End Outfit.

(** ** The program *)

Module Program.

(** The [__main__] block after argument parsing and [json.load]: the
    policy is constructed first, and the outfit generator only if that did
    not raise. *)
Definition main (fuel : nat) (warmth comfort : option Z) (fancy : bool)
    (include : option string) (closet : Closet) (w : World)
    : option (res (list string * list string)) :=
  match OutfitPolicy.init (heap w) warmth comfort fancy include closet with
  | Raise e => Some (Raise e)
  | Ok policy => Outfit.generate fuel (Outfit.init policy closet) w
  end.

End Program.

(** ** Vocabulary of the statements *)

(** The list object the closet holds for a piece type (the dict literal of
    both constructors). *)
Definition closet_list (closet : Closet) (pt : PieceType.t) : ref :=
  match pt with
  | PieceType.top => tops closet
  | PieceType.bottom => bottoms closet
  | PieceType.jacket => jackets closet
  | PieceType.shoe => shoes closet
  end.

(** Some piece of the closet has the name [n]. *)
Definition name_in_closet (σ : store) (closet : Closet) (n : string) : Prop :=
  ∃ pt p, p ∈ deref σ (closet_list closet pt) ∧ name p = n.

(** Two policy objects with the same configuration: every attribute but the
    cache [piece_type_to_piece] agrees. *)
Definition same_config (p q : OutfitPolicy.t) : Prop :=
  OutfitPolicy.warmth_level p = OutfitPolicy.warmth_level q
  ∧ OutfitPolicy.fancy p = OutfitPolicy.fancy q
  ∧ OutfitPolicy.comfort_level p = OutfitPolicy.comfort_level q
  ∧ OutfitPolicy.required_piece p = OutfitPolicy.required_piece q
  ∧ OutfitPolicy.piece_type_to_list p = OutfitPolicy.piece_type_to_list q
  ∧ OutfitPolicy.required_piece_type p = OutfitPolicy.required_piece_type q
  ∧ OutfitPolicy.neutral_colors p = OutfitPolicy.neutral_colors q.

(** The policy with another warmth option. *)
Definition with_warmth_level (self : OutfitPolicy.t) (w : option Z)
    : OutfitPolicy.t :=
  OutfitPolicy.mk w (OutfitPolicy.fancy self) (OutfitPolicy.comfort_level self)
    (OutfitPolicy.required_piece self) (OutfitPolicy.piece_type_to_list self)
    (OutfitPolicy.required_piece_type self) (OutfitPolicy.neutral_colors self)
    (OutfitPolicy.piece_type_to_piece self).

(** A piece with its warmth attribute replaced. *)
Definition rewarm (f : Piece -> Z) (p : Piece) : Piece :=
  mkPiece (name p) (filename p)
    (Attr.mk (Attr.color (attributes p)) (f p) (Attr.comfort (attributes p))
       (Attr.fancy (attributes p)) (Attr.loose (attributes p))).

(** The arguments of one call of [is_valid], and a sequence of calls on the
    same policy object. *)
Record call : Type := mkCall {
  arg_top : option Piece;
  arg_bottom : option Piece;
  arg_jacket : option Piece;
  arg_shoe : option Piece }.

Definition is_valid_call (self : OutfitPolicy.t) (c : call)
    : res bool * OutfitPolicy.t :=
  OutfitPolicy.is_valid self (arg_top c) (arg_bottom c) (arg_jacket c)
    (arg_shoe c).

Definition after_calls (self : OutfitPolicy.t) (cs : list call)
    : OutfitPolicy.t :=
  foldl (fun s c => (is_valid_call s c).2) self cs.

(** Construction of the policy raises for exactly the required names that no
    piece of the closet has: the statement of the specification, which the
    empty name refutes. *)
Definition raises_iff_name_missing (σ : store) (closet : Closet)
    (n : string) : Prop :=
  ∀ warmth comfort fancy,
    (∃ e, OutfitPolicy.init σ warmth comfort fancy (Some n) closet = Raise e)
    ↔ ¬ name_in_closet σ closet n.

(** A required name that several piece types of the closet carry is resolved
    to the first of them, which alone is locked: the statement of the
    specification, which the empty name refutes. *)
Definition resolves_to_first_match (σ : store) (closet : Closet)
    (n : string) : Prop :=
  ∀ warmth comfort fancy self,
    (∃ C1 C2 p1 p2,
       C1 ≠ C2
       ∧ p1 ∈ deref σ (closet_list closet C1) ∧ name p1 = n
       ∧ p2 ∈ deref σ (closet_list closet C2) ∧ name p2 = n) →
    OutfitPolicy.init σ warmth comfort fancy (Some n) closet = Ok self →
    ∃ C,
      OutfitPolicy.required_piece_type self = Some C
      ∧ (∃ p, p ∈ deref σ (closet_list closet C) ∧ name p = n)
      ∧ (∀ C' p, p ∈ deref σ (closet_list closet C') → name p = n →
                 PieceType.to_nat C ≤ PieceType.to_nat C')
      ∧ ∀ top bottom jacket shoe,
          OutfitPolicy.contains_required_piece_for_piece_type
            (OutfitPolicy.is_valid self top bottom jacket shoe).2 = Ok false
          ↔ ∃ p, OutfitPolicy.assignment top bottom jacket shoe C = Some p
                 ∧ name p ≠ n.

(** A closet whose bottom and whose jacket both carry the empty name. *)
Definition nameless_store : store :=
  [[]; [mkPiece "" "b.png" (Attr.mk "black" 2 2 false false)];
   [mkPiece "" "j.png" (Attr.mk "black" 2 2 false false)]; []].

(** The candidates of a piece type: the list the generator holds for it. *)
Definition candidates (σ : store) (self : Outfit.t) (pt : PieceType.t)
    : list Piece :=
  deref σ (Outfit.piece_type_to_list self pt).

(** A complete outfit of the closet: one candidate for every piece type. *)
Definition complete_outfit (σ : store) (self : Outfit.t)
    (outfit : gmap PieceType.t Piece) : Prop :=
  ∀ pt, ∃ p, outfit !! pt = Some p ∧ p ∈ candidates σ self pt.

(** The exception raised when the work stack runs empty. *)
Definition exhausted : exn :=
  Exception "Outfit cannot be generated with existing closet and constraints".

(** A policy object as [__init__] leaves it: the required piece type is
    assigned whenever the required piece counts as set. *)
Definition consistent (p : OutfitPolicy.t) : Prop :=
  truthy_str (OutfitPolicy.required_piece p) = true →
  is_Some (OutfitPolicy.required_piece_type p).

(** The number of loop iterations one stack entry of a piece type can cause:
    its own and those of the entries it can push. *)
Definition weight (σ : store) (self : Outfit.t) (pt : PieceType.t) : nat :=
  let n pt := length (candidates σ self pt) in
  match pt with
  | PieceType.shoe => 1
  | PieceType.jacket => 1 + n PieceType.shoe * 1
  | PieceType.bottom => 1 + n PieceType.jacket * (1 + n PieceType.shoe * 1)
  | PieceType.top =>
      1 + n PieceType.bottom
          * (1 + n PieceType.jacket * (1 + n PieceType.shoe * 1))
  end.

Definition stack_weight (σ : store) (self : Outfit.t)
    (to_explore : list (PieceType.t * Piece)) : nat :=
  sum_list_with (λ x, weight σ self x.1) to_explore.

(** A bound on the number of times the loop test is evaluated. *)
Definition iteration_bound (σ : store) (self : Outfit.t) : nat :=
  S (length (candidates σ self PieceType.top) * weight σ self PieceType.top).

(** The invariant of the [while] loop of the search started on [self0]:
    the generator changes in the cache of its policy only; the stack is
    ordered by piece type, deepest on top; every entry is a candidate of its
    type, and the types before it are assigned. *)
Definition level_le (a b : PieceType.t * Piece) : Prop :=
  PieceType.to_nat a.1 ≤ PieceType.to_nat b.1.

Definition placeable (σ : store) (self0 : Outfit.t)
    (outfit : gmap PieceType.t Piece) (x : PieceType.t * Piece) : Prop :=
  x.2 ∈ candidates σ self0 x.1
  ∧ ∀ pt, PieceType.to_nat pt < PieceType.to_nat x.1 → is_Some (outfit !! pt).

Record loop_invariant (σ : store) (self0 : Outfit.t) (s : Outfit.loop_state)
    : Prop := mkInv {
  inv_order : Outfit.order (Outfit.this s) = PieceType.all;
  inv_lists :
    Outfit.piece_type_to_list (Outfit.this s)
    = Outfit.piece_type_to_list self0;
  inv_config :
    same_config (Outfit.policy (Outfit.this s)) (Outfit.policy self0);
  inv_sorted : StronglySorted level_le (Outfit.to_explore s);
  inv_stack : Forall (placeable σ self0 (Outfit.outfit s)) (Outfit.to_explore s);
  inv_outfit :
    ∀ pt p, Outfit.outfit s !! pt = Some p → p ∈ candidates σ self0 pt }.

(** A closet with an outfit that the search overlooks: a tee, a skirt or
    chinos, a parka or a blazer, and sneakers. *)
Definition plain (n c : string) : Piece :=
  mkPiece n (n +:+ ".png") (Attr.mk c 2 2 false false).

Definition stale_store : store :=
  [[plain "tee" "black"];
   [plain "skirt" "blue"; plain "chinos" "green"];
   [plain "parka" "green"; plain "blazer" "black"];
   [plain "sneakers" "blue"]].

Definition stale_closet : Closet := mkCloset 0 1 2 3.

Definition overlooked_outfit : gmap PieceType.t Piece :=
  <[PieceType.top := plain "tee" "black"]>
    (<[PieceType.bottom := plain "skirt" "blue"]>
       (<[PieceType.jacket := plain "blazer" "black"]>
          (<[PieceType.shoe := plain "sneakers" "blue"]> ∅))).

(** A closet in which the name denim is used for a bottom and for a
    jacket, and whose pieces all have neutral colors. *)
Definition twin_store : store :=
  [[plain "tee" "black"];
   [plain "denim" "jeanblue"];
   [plain "denim" "jeanblue"];
   [plain "boots" "black"]].

(** The policy [__init__] builds on that closet for given options. *)
Definition twin_policy (warmth : option Z)
    (required : option (string * PieceType.t)) : OutfitPolicy.t :=
  OutfitPolicy.mk warmth false None (fst <$> required)
    (closet_list stale_closet) (snd <$> required)
    ["black"; "white"; "tan"; "gray"; "jeanblue"] (λ _, None).

(** The random source whose draws are all zero. *)
Definition zeros : Rng := mkRng (λ _, 0) 0.

(** The pieces a call of [is_valid] assigns. *)
Definition assigned (top bottom jacket shoe : option Piece) (p : Piece) : Prop :=
  top = Some p ∨ bottom = Some p ∨ jacket = Some p ∨ shoe = Some p.

(** An argument of a smaller assignment: absent, or the same piece. *)
Definition sub_piece (o' o : option Piece) : Prop := o' = None ∨ o' = o.

(** What the six operands of the [and] chain of [is_valid] ask of the
    attributes of the assigned pieces; an option is active when it is true in
    the sense of [not self.option]. *)
Definition accepted (self : OutfitPolicy.t)
    (top bottom jacket shoe : option Piece) : Prop :=
  (∀ p q, assigned top bottom jacket shoe p →
          assigned top bottom jacket shoe q →
          Attr.color (attributes p) ∉ OutfitPolicy.neutral_colors self →
          Attr.color (attributes q) ∉ OutfitPolicy.neutral_colors self →
          Attr.color (attributes p) = Attr.color (attributes q))
  ∧ (∀ t b, top = Some t → bottom = Some b →
            Attr.loose (attributes t) = true →
            Attr.loose (attributes b) = false)
  ∧ (truthy_int (OutfitPolicy.warmth_level self) = true →
     ∀ p, bottom = Some p ∨ jacket = Some p →
          Some (Attr.warmth (attributes p)) = OutfitPolicy.warmth_level self)
  ∧ (truthy_int (OutfitPolicy.comfort_level self) = true →
     ∀ p, assigned top bottom jacket shoe p →
          ∃ l, OutfitPolicy.comfort_level self = Some l
               ∧ (l ≤ Attr.comfort (attributes p))%Z)
  ∧ (OutfitPolicy.fancy self = true →
     ∀ p, assigned top bottom jacket shoe p →
          Attr.fancy (attributes p) = true)
  ∧ (truthy_str (OutfitPolicy.required_piece self) = true →
     ∀ C p, OutfitPolicy.required_piece_type self = Some C →
            OutfitPolicy.assignment top bottom jacket shoe C = Some p →
            Some (name p) = OutfitPolicy.required_piece self).

(** The bound on the loop tests of the search, from the lengths of the
    closet's lists. *)
Definition closet_bound (σ : store) (closet : Closet) : nat :=
  let n pt := length (deref σ (closet_list closet pt)) in
  S (n PieceType.top
     * (1 + n PieceType.bottom
            * (1 + n PieceType.jacket * (1 + n PieceType.shoe * 1)))).


(** A closet without any bottom. *)
Definition bare_store : store :=
  [[plain "tee" "black"]; []; [plain "parka" "green"]; [plain "boots" "black"]].

(** The states of the search below the first top [t] and the first bottom
    [b] in which an acceptable outfit with [t] and [b] is still ahead: the
    stack ends with jackets [J] and, above them, shoes [S']; either the
    current jacket goes with a shoe of [S'], or a jacket of [J] goes with
    some shoe. *)
Definition promising (σ : store) (self0 : Outfit.t) (t b : Piece)
    (s : Outfit.loop_state) : Prop :=
  Outfit.order (Outfit.this s) = PieceType.all
  ∧ Outfit.piece_type_to_list (Outfit.this s)
    = Outfit.piece_type_to_list self0
  ∧ same_config (Outfit.policy (Outfit.this s)) (Outfit.policy self0)
  ∧ ∃ L J S',
      Outfit.to_explore s
      = L ++ ((λ p, (PieceType.jacket, p)) <$> J)
          ++ ((λ p, (PieceType.shoe, p)) <$> S')
      ∧ Outfit.outfit s !! PieceType.top = Some t
      ∧ Outfit.outfit s !! PieceType.bottom = Some b
      ∧ Outfit.outfit s !! PieceType.shoe = None
      ∧ (S' ≠ [] → is_Some (Outfit.outfit s !! PieceType.jacket))
      ∧ ((∃ jc sh,
            Outfit.outfit s !! PieceType.jacket = Some jc ∧ sh ∈ S'
            ∧ (OutfitPolicy.is_valid (Outfit.policy self0)
                 (Some t) (Some b) (Some jc) (Some sh)).1 = Ok true)
         ∨ (∃ j sh,
              j ∈ J ∧ sh ∈ candidates σ self0 PieceType.shoe
              ∧ (OutfitPolicy.is_valid (Outfit.policy self0)
                   (Some t) (Some b) (Some j) (Some sh)).1 = Ok true)).

(** * Properties of the policy evaluator *)

Section policy.
Import OutfitPolicy.

Lemma same_config_refl p : same_config p p.
Proof. by repeat split. Qed.

Lemma same_config_trans p q r :
  same_config p q → same_config q r → same_config p r.
Proof.
  unfold same_config. intros (?&?&?&?&?&?&?) (?&?&?&?&?&?&?).
  repeat split; congruence.
Qed.

Lemma set_piece_type_to_piece_config self d :
  same_config (set_piece_type_to_piece self d) self.
Proof. by repeat split. Qed.

(** The object [is_valid] returns is the receiver with a new cache. *)
Lemma is_valid_self self top bottom jacket shoe :
  (is_valid self top bottom jacket shoe).2
  = set_piece_type_to_piece self (assignment top bottom jacket shoe).
Proof. reflexivity. Qed.

(** [is_valid] reads the configuration and its arguments, not the cache. *)
Lemma is_valid_same_config p q top bottom jacket shoe :
  same_config p q →
  is_valid p top bottom jacket shoe = is_valid q top bottom jacket shoe.
Proof.
  destruct p, q. unfold same_config. cbn.
  intros (?&?&?&?&?&?&?). by simplify_eq.
Qed.

Lemma after_calls_config self cs : same_config (after_calls self cs) self.
Proof.
  revert self. induction cs as [|c cs IH]; intros self; cbn.
  - apply same_config_refl.
  - eapply same_config_trans; [apply IH|].
    apply set_piece_type_to_piece_config.
Qed.

Lemma same_config_sym p q : same_config p q → same_config q p.
Proof. unfold same_config. intros (?&?&?&?&?&?&?). by repeat split. Qed.

(** C7: the result of [is_valid] is a function of the configuration and of
    the four arguments of the call.  Whatever calls two policy objects of
    the same configuration have served before, the same call returns the
    same result on both, and the cache it leaves behind is built from the
    arguments of this call alone. *)
Theorem is_valid_history_independent p q (cs1 cs2 : list call) (c : call) :
  same_config p q →
  (is_valid_call (after_calls p cs1) c).1
  = (is_valid_call (after_calls q cs2) c).1
  ∧ piece_type_to_piece (is_valid_call (after_calls p cs1) c).2
    = assignment (arg_top c) (arg_bottom c) (arg_jacket c) (arg_shoe c).
Proof.
  intros Hpq. split; [|reflexivity].
  unfold is_valid_call. f_equal. apply is_valid_same_config.
  eapply same_config_trans; [apply after_calls_config|].
  eapply same_config_trans; [apply Hpq|].
  apply same_config_sym, after_calls_config.
Qed.

(** *** The color check *)

Lemma elem_of_non_neutral_colors neutral pieces acc c :
  c ∈ non_neutral_colors neutral pieces acc
  ↔ c ∈ acc
    ∨ ((c ∉ neutral)
       ∧ (∃ p, Some p ∈ pieces ∧ Attr.color (attributes p) = c)).
Proof.
  revert acc. induction pieces as [|[q|] pieces IH]; intros acc; cbn.
  - split; [by left|]. intros [?|(_&p&Hp&_)]; [done|]. by apply elem_of_nil in Hp.
  - case_bool_decide as Hq; rewrite IH.
    + rewrite elem_of_app, list_elem_of_singleton. split.
      * intros [[?| ->]|(?&p&?&?)]; [by left|right..].
        -- split; [done|]. exists q. split; [left|done].
        -- split; [done|]. exists p. split; [by right|done].
      * intros [?|(?&p&Hp&?)]; [by left; left|].
        apply elem_of_cons in Hp as [[= ->]|?]; [left; by right|].
        right. split; [done|]. by exists p.
    + split.
      * intros [?|(?&p&?&?)]; [by left|right].
        split; [done|]. exists p. split; [by right|done].
      * intros [?|(Hc&p&Hp&Hcol)]; [by left|].
        apply elem_of_cons in Hp as [[= ->]|?].
        -- subst c. by destruct Hc.
        -- right. split; [done|]. by exists p.
  - rewrite IH. split.
    + intros [?|(?&p&?&?)]; [by left|right].
      split; [done|]. exists p. split; [by right|done].
    + intros [?|(?&p&Hp&?)]; [by left|].
      apply elem_of_cons in Hp as [?|?]; [done|].
      right. split; [done|]. by exists p.
Qed.

Lemma elem_of_values_assignment top bottom jacket shoe (p : Piece) :
  Some p ∈ values (assignment top bottom jacket shoe)
  ↔ top = Some p ∨ bottom = Some p ∨ jacket = Some p ∨ shoe = Some p.
Proof.
  unfold values. cbn. rewrite !elem_of_cons, elem_of_nil. naive_solver.
Qed.

(** C3: the color check run by [is_valid] accepts exactly when the set of
    distinct colors, outside the neutral colors, of the assigned pieces has
    at most one element; [S] is any set that is this set of colors.  A
    rejection of the color check is a rejection of [is_valid]. *)
Theorem is_color_matched_iff self top bottom jacket shoe (S : gset string) :
  neutral_colors self = ["black"; "white"; "tan"; "gray"; "jeanblue"] →
  (∀ c, c ∈ S ↔
        (c ∉ ["black"; "white"; "tan"; "gray"; "jeanblue"])
        ∧ (∃ p, (top = Some p ∨ bottom = Some p ∨ jacket = Some p
                 ∨ shoe = Some p)
                ∧ Attr.color (attributes p) = c)) →
  let checked := (is_valid self top bottom jacket shoe).2 in
  (is_color_matched checked = true ↔ size S ≤ 1)
  ∧ (is_color_matched checked = false →
     (is_valid self top bottom jacket shoe).1 = Ok false).
Proof.
  intros Hneutral HS checked. split.
  - unfold is_color_matched. rewrite bool_decide_eq_true.
    match goal with |- size ?X ≤ 1 ↔ _ => assert (X = S) as -> end; [|done].
    apply set_eq. intros c. rewrite elem_of_list_to_set.
    rewrite elem_of_non_neutral_colors, HS. subst checked. cbn.
    rewrite Hneutral. setoid_rewrite elem_of_values_assignment.
    rewrite elem_of_nil. naive_solver.
  - intros Hno. unfold is_valid. cbn -[is_color_matched].
    subst checked. rewrite is_valid_self in Hno. by rewrite Hno.
Qed.

(** *** The warmth check *)

Lemma meets_warmth_level_iff self bottom jacket (w : Z) :
  warmth_level self = Some w →
  meets_warmth_level self bottom jacket = true
  ↔ (∀ b, bottom = Some b → Attr.warmth (attributes b) = w)
    ∧ (∀ j, jacket = Some j → Attr.warmth (attributes j) = w).
Proof.
  intros Hw. unfold meets_warmth_level. rewrite Hw, andb_true_iff.
  destruct bottom as [b|], jacket as [j|];
    rewrite ?bool_decide_eq_true; naive_solver.
Qed.

(** The checks other than the warmth check read no warmth attribute. *)
Lemma is_valid_rewarm self (f : Piece → Z) top bottom jacket shoe :
  truthy_int (warmth_level self) = false →
  (is_valid self (rewarm f <$> top) (rewarm f <$> bottom)
     (rewarm f <$> jacket) (rewarm f <$> shoe)).1
  = (is_valid self top bottom jacket shoe).1.
Proof.
  intros Hw. unfold is_valid. cbn -[is_color_matched meets_comfort_level
    is_fancy contains_required_piece_for_piece_type].
  rewrite Hw. cbn -[is_color_matched meets_comfort_level
    is_fancy contains_required_piece_for_piece_type].
  by destruct top, bottom, jacket, shoe.
Qed.

Lemma is_valid_rewarm_top_shoe self (f : Piece → Z) top bottom jacket shoe :
  (is_valid self (rewarm f <$> top) bottom jacket (rewarm f <$> shoe)).1
  = (is_valid self top bottom jacket shoe).1.
Proof. by destruct top, shoe. Qed.

(** C4: with the warmth option unset, [is_valid] reads no warmth attribute
    at all; with the option set to [w] in 1..3, [is_valid] accepts exactly
    when the assigned bottom and the assigned jacket, as far as present,
    have warmth [w] and the policy without the warmth option accepts; the
    warmth of the top and of the shoe is not read. *)
Theorem is_valid_warmth self (w : Z) (f : Piece → Z) top bottom jacket shoe :
  (1 ≤ w ≤ 3)%Z →
  let unset := with_warmth_level self None in
  let set := with_warmth_level self (Some w) in
  (is_valid unset (rewarm f <$> top) (rewarm f <$> bottom)
     (rewarm f <$> jacket) (rewarm f <$> shoe)).1
  = (is_valid unset top bottom jacket shoe).1
  ∧ ((is_valid set top bottom jacket shoe).1 = Ok true
     ↔ (∀ b, bottom = Some b → Attr.warmth (attributes b) = w)
       ∧ (∀ j, jacket = Some j → Attr.warmth (attributes j) = w)
       ∧ (is_valid unset top bottom jacket shoe).1 = Ok true)
  ∧ (is_valid set (rewarm f <$> top) bottom jacket (rewarm f <$> shoe)).1
    = (is_valid set top bottom jacket shoe).1.
Proof.
  intros Hw unset set. split; [by apply is_valid_rewarm|].
  split; [|apply is_valid_rewarm_top_shoe].
  pose proof (meets_warmth_level_iff set bottom jacket w eq_refl) as Hm.
  enough ((is_valid set top bottom jacket shoe).1 = Ok true
          ↔ meets_warmth_level set bottom jacket = true
            ∧ (is_valid unset top bottom jacket shoe).1 = Ok true) as ->
    by (rewrite Hm; tauto).
  clear Hm. unfold is_valid.
  cbn -[is_color_matched meets_comfort_level is_fancy
    contains_required_piece_for_piece_type meets_warmth_level].
  assert ((w =? 0)%Z = false) as -> by lia.
  cbn -[is_color_matched meets_comfort_level is_fancy
    contains_required_piece_for_piece_type meets_warmth_level].
  change (meets_warmth_level _ bottom jacket)
    with (meets_warmth_level set bottom jacket).
  destruct (meets_warmth_level set bottom jacket),
    (is_color_matched _), (has_silhouette top bottom); cbn; naive_solver.
Qed.

(** *** The required piece *)

Lemma elem_of_items {V : Type} (d : PieceType.t → V) pt v :
  (pt, v) ∈ items d ↔ d pt = v.
Proof.
  unfold items. cbn. rewrite !elem_of_cons, elem_of_nil.
  destruct pt; naive_solver.
Qed.

Lemma contains_required_piece_loop_spec self C its :
  required_piece_type self = Some C →
  ∃ b, contains_required_piece_loop self its = Ok b
       ∧ (b = false
          ↔ ∃ p, (C, Some p) ∈ its ∧ Some (name p) ≠ required_piece self).
Proof.
  intros HC. induction its as [|[pt [q|]] its (b & IH & Hb)]; cbn.
  - exists true. split; [done|]. split; [done|].
    intros (p & Hp & _). by apply elem_of_nil in Hp.
  - rewrite HC. destruct (bool_decide (C = pt)) eqn:Hpt; cbn.
    + apply bool_decide_eq_true in Hpt as <-. case_bool_decide as Hname.
      * exists false. split; [done|]. split; [|done].
        intros _. exists q. split; [left|done].
      * exists b. split; [done|]. rewrite Hb. split.
        -- intros (p & ? & ?). exists p. split; [by right|done].
        -- intros (p & Hp & ?). apply elem_of_cons in Hp as [?|?];
             [by simplify_eq|by exists p].
    + apply bool_decide_eq_false in Hpt.
      exists b. split; [done|]. rewrite Hb. split.
      * intros (p & ? & ?). exists p. split; [by right|done].
      * intros (p & Hp & ?). apply elem_of_cons in Hp as [?|?];
          [by simplify_eq|by exists p].
  - exists b. split; [done|]. rewrite Hb. split.
    + intros (p & ? & ?). exists p. split; [by right|done].
    + intros (p & Hp & ?). apply elem_of_cons in Hp as [?|?];
        [by simplify_eq|by exists p].
Qed.

Lemma contains_required_piece_spec self n C :
  required_piece self = Some n →
  required_piece_type self = Some C →
  ∃ b, contains_required_piece_for_piece_type self = Ok b
       ∧ (b = false
          ↔ ∃ p, piece_type_to_piece self C = Some p ∧ name p ≠ n).
Proof.
  intros Hn HC.
  destruct (contains_required_piece_loop_spec self C
              (items (piece_type_to_piece self)) HC) as (b & Hloop & Hb).
  exists b. split; [done|]. rewrite Hb, Hn.
  setoid_rewrite elem_of_items. naive_solver.
Qed.

Lemma meets_comfort_level_loop_ok (l : Z) pieces :
  ∃ b, meets_comfort_level_loop (Some l) pieces = Ok b.
Proof.
  induction pieces as [|[p|] pieces IH]; cbn; [by eexists|..|done].
  destruct (_ <? _)%Z; [by eexists|done].
Qed.

(** With a consistent required piece, every operand of the [and] chain of
    [is_valid] evaluates to a boolean. *)
Lemma is_valid_ok self top bottom jacket shoe :
  (truthy_str (required_piece self) = true →
   is_Some (required_piece_type self)) →
  ∃ b, (is_valid self top bottom jacket shoe).1 = Ok b.
Proof.
  intros Hreq. unfold is_valid.
  cbn -[is_color_matched meets_comfort_level is_fancy
    contains_required_piece_for_piece_type meets_warmth_level].
  set (checked := set_piece_type_to_piece self _).
  assert (∃ b, (if negb (truthy_int (comfort_level self)) then Ok true
                else meets_comfort_level checked) = Ok b) as [bc ->].
  { destruct (comfort_level self) as [l|] eqn:Hl; cbn [truthy_int negb];
      [|by eexists].
    destruct (l =? 0)%Z; cbn [negb]; [by eexists|].
    unfold meets_comfort_level.
    change (comfort_level checked) with (comfort_level self). rewrite Hl.
    apply meets_comfort_level_loop_ok. }
  assert (∃ b, (if negb (truthy_str (required_piece self)) then Ok true
                else contains_required_piece_for_piece_type checked) = Ok b)
    as [br ->].
  { destruct (truthy_str (required_piece self)) eqn:Ht; cbn [negb];
      [|by eexists].
    destruct (required_piece self) as [n|] eqn:Hn; [|done].
    destruct (Hreq eq_refl) as [C HC].
    destruct (contains_required_piece_spec checked n C) as (b & -> & _);
      [done..|by eexists]. }
  destruct (is_color_matched checked), (has_silhouette top bottom),
    (negb (truthy_int (warmth_level self))),
    (meets_warmth_level checked bottom jacket),
    bc, (negb (fancy self)), (is_fancy checked), br; cbn; by eexists.
Qed.

(** C5: with the required piece set to the name [n] and resolved to the
    piece type [C], the required-piece check run by [is_valid] rejects
    exactly the assignments whose piece of type [C] is present under
    another name; whatever is assigned to the other piece types, and an
    absent piece of type [C], pass.  A rejection of this check is a
    rejection of [is_valid]. *)
Theorem required_piece_check self n C top bottom jacket shoe :
  required_piece self = Some n →
  n ≠ "" →
  required_piece_type self = Some C →
  let checked := (is_valid self top bottom jacket shoe).2 in
  let other_name :=
    ∃ p, assignment top bottom jacket shoe C = Some p ∧ name p ≠ n in
  (contains_required_piece_for_piece_type checked = Ok false ↔ other_name)
  ∧ (contains_required_piece_for_piece_type checked = Ok true
     ↔ ¬ other_name)
  ∧ (other_name → (is_valid self top bottom jacket shoe).1 = Ok false).
Proof.
  intros Hn Hne HC checked other_name.
  destruct (contains_required_piece_spec checked n C Hn HC)
    as (b & Hcheck & Hb).
  change (piece_type_to_piece checked)
    with (assignment top bottom jacket shoe) in Hb.
  fold other_name in Hb.
  assert (contains_required_piece_for_piece_type checked = Ok false
          ↔ other_name) as Hfalse.
  { rewrite Hcheck, <-Hb. naive_solver. }
  split; [done|]. split.
  - rewrite Hcheck, <-Hb. destruct b; naive_solver.
  - intros Hother. apply Hfalse in Hother.
    destruct (is_valid_ok self top bottom jacket shoe) as [bv Hbv].
    { rewrite HC. by eexists. }
    rewrite Hbv. f_equal. revert Hbv. unfold is_valid.
    cbn -[is_color_matched meets_comfort_level is_fancy
      contains_required_piece_for_piece_type meets_warmth_level].
    assert (truthy_str (required_piece self) = true) as ->.
    { rewrite Hn. cbn. apply negb_true_iff, String.eqb_neq. done. }
    cbn [negb]. change (set_piece_type_to_piece self _) with checked.
    rewrite Hother.
    match goal with |- ?X &&& Ok false = _ → _ => destruct X as [[]|] end;
      cbn; congruence.
Qed.

(** *** Resolving the required piece at construction *)

Lemma has_name_iff n (l : list Piece) :
  0 < length (filter (λ p, name p = n) l) ↔ ∃ p, p ∈ l ∧ name p = n.
Proof.
  split.
  - destruct (filter _ l) as [|p l'] eqn:Hf; cbn; [lia|]. intros _.
    assert (p ∈ filter (λ p, name p = n) l) as Hp by (rewrite Hf; left).
    apply list_elem_of_filter in Hp as [? ?]. by exists p.
  - intros (p & Hp & Hn).
    assert (p ∈ filter (λ p, name p = n) l) as Hin
      by by apply list_elem_of_filter.
    destruct (filter _ l); [by apply elem_of_nil in Hin|cbn; lia].
Qed.

Local Ltac use_names :=
  repeat match goal with
    | H : context [0 < length (filter _ _)] |- _ =>
        rewrite has_name_iff in H
    end.

Lemma get_piece_type_from_name_spec σ (d : PieceType.t → ref) n :
  match get_piece_type_from_name σ d n with
  | Ok C =>
      (∃ p, p ∈ deref σ (d C) ∧ name p = n)
      ∧ ∀ C' p, p ∈ deref σ (d C') → name p = n →
                PieceType.to_nat C ≤ PieceType.to_nat C'
  | Raise e =>
      (∃ msg, e = ArgumentTypeError msg)
      ∧ ¬ ∃ pt p, p ∈ deref σ (d pt) ∧ name p = n
  end.
Proof.
  unfold get_piece_type_from_name, items. cbn.
  repeat (case_bool_decide;
          [split; [by apply has_name_iff|];
           intros [] q ? ?; cbn; try lia; use_names; naive_solver|]).
  split; [by eexists|]. use_names. intros ([] & q & ? & ?); naive_solver.
Qed.

Lemma truthy_str_Some n : n ≠ "" → truthy_str (Some n) = true.
Proof. intros Hn. cbn. by apply negb_true_iff, String.eqb_neq. Qed.

Lemma init_required σ warmth comfort fancy n closet :
  n ≠ "" →
  init σ warmth comfort fancy (Some n) closet
  = (C ← get_piece_type_from_name σ (closet_list closet) n;
     Ok (mk warmth fancy comfort (Some n) (closet_list closet) (Some C)
           ["black"; "white"; "tan"; "gray"; "jeanblue"] (λ _, None))).
Proof.
  intros Hn.
  change (init σ warmth comfort fancy (Some n) closet)
    with (rpt ← (if truthy_str (Some n)
                 then pt ← get_piece_type_from_name σ (closet_list closet) n;
                      Ok (Some pt)
                 else Ok None);
          Ok (mk warmth fancy comfort (Some n) (closet_list closet) rpt
                ["black"; "white"; "tan"; "gray"; "jeanblue"] (λ _, None))).
  rewrite truthy_str_Some by done.
  by destruct (get_piece_type_from_name σ (closet_list closet) n).
Qed.

Lemma init_first_match σ warmth comfort fancy n closet self :
  n ≠ "" →
  init σ warmth comfort fancy (Some n) closet = Ok self →
  ∃ C,
    required_piece_type self = Some C
    ∧ (∃ p, p ∈ deref σ (closet_list closet C) ∧ name p = n)
    ∧ (∀ C' p, p ∈ deref σ (closet_list closet C') → name p = n →
               PieceType.to_nat C ≤ PieceType.to_nat C')
    ∧ ∀ top bottom jacket shoe,
        contains_required_piece_for_piece_type
          (is_valid self top bottom jacket shoe).2 = Ok false
        ↔ ∃ p, assignment top bottom jacket shoe C = Some p ∧ name p ≠ n.
Proof.
  intros Hn Hinit. rewrite init_required in Hinit by done.
  pose proof (get_piece_type_from_name_spec σ (closet_list closet) n) as HC.
  destruct (get_piece_type_from_name σ (closet_list closet) n) as [C|e];
    [|done].
  cbn in Hinit. injection Hinit as <-. destruct HC as [Hin Hfirst].
  exists C. split; [done|]. split; [done|]. split; [done|].
  intros top bottom jacket shoe.
  edestruct contains_required_piece_spec as (b & -> & Hb); [done..|].
  cbn in Hb. rewrite <-Hb. naive_solver.
Qed.

(** The empty name is taken for no name: nothing is resolved, whatever the
    closet holds. *)
Lemma init_empty_name σ warmth comfort fancy closet :
  init σ warmth comfort fancy (Some "") closet
  = Ok (mk warmth fancy comfort (Some "") (closet_list closet) None
          ["black"; "white"; "tan"; "gray"; "jeanblue"] (λ _, None)).
Proof. reflexivity. Qed.

Lemma init_no_name σ warmth comfort fancy closet :
  init σ warmth comfort fancy None closet
  = Ok (mk warmth fancy comfort None (closet_list closet) None
          ["black"; "white"; "tan"; "gray"; "jeanblue"] (λ _, None)).
Proof. reflexivity. Qed.

(** With the empty name for required piece, [is_valid] skips the
    required-piece check, as it does without a required piece. *)
Lemma is_valid_empty_name warmth comfort fancy lists neutral cache
    top bottom jacket shoe :
  (is_valid (mk warmth fancy comfort (Some "") lists None neutral cache)
     top bottom jacket shoe).1
  = (is_valid (mk warmth fancy comfort None lists None neutral cache)
       top bottom jacket shoe).1.
Proof. reflexivity. Qed.

(** C10, amended: a required piece name other than the empty string is
    resolved to the first piece type, in the order top, bottom, jacket, shoe,
    whose closet list has a piece of that name, also when later piece types
    have one too; the required-piece check then rejects exactly the
    assignments whose piece of that one type is present under another name.
    The empty name is never resolved, whatever pieces carry it: the policy
    has no required piece type, and [is_valid] returns what it returns on
    the policy constructed without a required piece. *)
Theorem required_piece_first_match σ warmth comfort fancy n closet :
  (n ≠ "" →
   ∀ self,
     init σ warmth comfort fancy (Some n) closet = Ok self →
     ∃ C,
       required_piece_type self = Some C
       ∧ (∃ p, p ∈ deref σ (closet_list closet C) ∧ name p = n)
       ∧ (∀ C' p, p ∈ deref σ (closet_list closet C') → name p = n →
                  PieceType.to_nat C ≤ PieceType.to_nat C')
       ∧ ∀ top bottom jacket shoe,
           contains_required_piece_for_piece_type
             (is_valid self top bottom jacket shoe).2 = Ok false
           ↔ ∃ p, assignment top bottom jacket shoe C = Some p ∧ name p ≠ n)
  ∧ (n = "" →
     ∃ self unrequired,
       init σ warmth comfort fancy (Some n) closet = Ok self
       ∧ init σ warmth comfort fancy None closet = Ok unrequired
       ∧ required_piece_type self = None
       ∧ ∀ top bottom jacket shoe,
           (is_valid self top bottom jacket shoe).1
           = (is_valid unrequired top bottom jacket shoe).1).
Proof.
  split.
  - intros Hn self Hinit. by eapply init_first_match.
  - intros ->. eexists _, _.
    split; [apply init_empty_name|]. split; [apply init_no_name|].
    split; [done|]. intros top bottom jacket shoe.
    apply is_valid_empty_name.
Qed.

End policy.

(** C10, as stated, fails for the empty name: a bottom and a jacket both
    carry it, yet [if self.required_piece:] skips the resolution and the
    constructed policy has no required piece type. *)
Lemma empty_name_in_two_types_is_not_resolved :
  ¬ resolves_to_first_match nameless_store (mkCloset 0 1 2 3) "".
Proof.
  intros H.
  destruct (H None None false
              (OutfitPolicy.mk None false None (Some "")
                 (closet_list (mkCloset 0 1 2 3)) None
                 ["black"; "white"; "tan"; "gray"; "jeanblue"] (λ _, None)))
    as (C & HC & _).
  - exists PieceType.bottom, PieceType.jacket,
      (mkPiece "" "b.png" (Attr.mk "black" 2 2 false false)),
      (mkPiece "" "j.png" (Attr.mk "black" 2 2 false false)).
    split; [done|]. split; [apply list_elem_of_here|]. split; [done|].
    split; [apply list_elem_of_here|done].
  - reflexivity.
  - discriminate HC.
Qed.

(** C6, as stated, fails for the empty name: [if self.required_piece:] takes
    it for no name at all, so the policy of a closet without any piece is
    constructed although no piece is called so. *)
Lemma empty_required_name_is_not_resolved :
  ¬ raises_iff_name_missing [[]; []; []; []] (mkCloset 0 1 2 3) "".
Proof.
  intros H. destruct (H None None false) as [_ Hraise].
  destruct Hraise as [e He]; [|done].
  intros (pt & p & Hp & _). destruct pt; by apply elem_of_nil in Hp.
Qed.

Lemma init_nonempty_name σ warmth comfort fancy n closet :
  n ≠ "" →
  ((∃ msg, OutfitPolicy.init σ warmth comfort fancy (Some n) closet
           = Raise (ArgumentTypeError msg))
   ↔ ¬ name_in_closet σ closet n)
  ∧ ((∃ self, OutfitPolicy.init σ warmth comfort fancy (Some n) closet
              = Ok self)
     ↔ name_in_closet σ closet n)
  ∧ (¬ name_in_closet σ closet n →
     ∀ g, ∃ msg,
       Program.main 0 warmth comfort fancy (Some n) closet (mkWorld σ g)
       = Some (Raise (ArgumentTypeError msg))).
Proof.
  intros Hn. rewrite init_required by done.
  pose proof (get_piece_type_from_name_spec σ (closet_list closet) n) as HC.
  assert (∀ e fuel g,
    OutfitPolicy.get_piece_type_from_name σ (closet_list closet) n = Raise e →
    Program.main fuel warmth comfort fancy (Some n) closet (mkWorld σ g)
    = Some (Raise e)) as Hmain.
  { intros e fuel g He. unfold Program.main. cbn [heap].
    rewrite init_required by done. by rewrite He. }
  unfold name_in_closet.
  destruct (OutfitPolicy.get_piece_type_from_name σ (closet_list closet) n)
    as [C|e] eqn:Hget; cbn.
  - destruct HC as [(p & ? & ?) _].
    assert (∃ pt p, p ∈ deref σ (closet_list closet pt) ∧ name p = n) as Hex
      by eauto.
    split; [|split].
    + split; [by intros [? ?]|by intros []].
    + split; [done|by eexists].
    + by intros [].
  - destruct HC as [[msg ->] Hnone].
    split; [|split].
    + split; [done|by eexists].
    + split; [by intros [? ?]|by intros ?].
    + intros _ g. exists msg. by apply Hmain.
Qed.

(** C6, amended: for a required name other than the empty string,
    construction raises the argument error exactly when no piece of the
    closet has the name and succeeds exactly when some piece has it; the
    program then ends with this error for any random source and before a
    single iteration of the search (no fuel is needed).  For the empty name
    construction succeeds whatever the closet holds, and resolves nothing:
    the policy has no required piece type. *)
Theorem init_raises_iff_name_missing σ warmth comfort fancy n closet :
  ((∃ e, OutfitPolicy.init σ warmth comfort fancy (Some n) closet = Raise e)
   ↔ n ≠ "" ∧ ¬ name_in_closet σ closet n)
  ∧ ((∃ msg, OutfitPolicy.init σ warmth comfort fancy (Some n) closet
             = Raise (ArgumentTypeError msg))
     ↔ n ≠ "" ∧ ¬ name_in_closet σ closet n)
  ∧ ((∃ self, OutfitPolicy.init σ warmth comfort fancy (Some n) closet
              = Ok self)
     ↔ n = "" ∨ name_in_closet σ closet n)
  ∧ (n = "" →
     OutfitPolicy.init σ warmth comfort fancy (Some n) closet
     = Ok (OutfitPolicy.mk warmth fancy comfort (Some n)
             (closet_list closet) None
             ["black"; "white"; "tan"; "gray"; "jeanblue"] (λ _, None)))
  ∧ (n ≠ "" → ¬ name_in_closet σ closet n →
     ∀ g, ∃ msg,
       Program.main 0 warmth comfort fancy (Some n) closet (mkWorld σ g)
       = Some (Raise (ArgumentTypeError msg))).
Proof.
  destruct (decide (n = "")) as [->|Hn].
  - rewrite init_empty_name.
    split; [split; [by intros [? ?]|by intros [? _]]|].
    split; [split; [by intros [? ?]|by intros [? _]]|].
    split; [split; [by left|by eexists]|].
    split; [done|]. by intros ?.
  - destruct (init_nonempty_name σ warmth comfort fancy n closet Hn)
      as (Hraise & Hok & Hmain).
    split; [|split; [|split; [|split]]].
    + split.
      * intros [e He]. split; [done|]. intros Hin.
        apply Hok in Hin as [self Hself]. congruence.
      * intros [_ Hmissing]. apply Hraise in Hmissing as [msg Hmsg].
        by eexists.
    + rewrite Hraise. split; [done|by intros [_ ?]].
    + rewrite Hok. split; [by right|by intros [?|?]].
    + done.
    + intros _. apply Hmain.
Qed.

(** * Properties of the randomization *)

Section randomize.
Context {A : Type}.
Implicit Types pool result : list A.

Lemma insert_cons_Permutation pool j (x y : A) :
  pool !! j = Some x → x :: <[j := y]> pool ≡ₚ y :: pool.
Proof.
  revert j. induction pool as [|a pool IH]; intros [|j] Hj; simplify_eq/=.
  - apply perm_swap.
  - rewrite perm_swap, (IH j Hj). apply perm_swap.
Qed.

(** The invariant of the selection loop: the pieces selected so far and
    the first [remaining] cells of the pool are the population. *)
Lemma sample_loop_Permutation remaining pool result g :
  remaining ≤ length pool →
  (sample_loop remaining pool result g).1 ≡ₚ result ++ take remaining pool.
Proof.
  revert pool result g.
  induction remaining as [|m IH]; intros pool result g Hlen.
  - cbn. by rewrite take_0, app_nil_r.
  - cbn [sample_loop randbelow].
    set (j := draws g (consumed g) mod S m).
    assert (j < S m) as Hj by (apply Nat.mod_upper_bound; lia).
    clearbody j.
    destruct (lookup_lt_is_Some_2 pool j) as [x Hx]; [lia|].
    destruct (lookup_lt_is_Some_2 pool m) as [y Hy]; [lia|].
    rewrite Hx, Hy, IH by (rewrite length_insert; lia).
    rewrite <-(assoc_L (++)), (take_S_r pool m y) by done. f_equiv. cbn.
    destruct (decide (j = m)) as [->|Hne].
    + rewrite take_insert_ge by done. simplify_eq.
      by rewrite Permutation_cons_append.
    + rewrite take_insert_lt by lia.
      rewrite insert_cons_Permutation
        by (rewrite lookup_take_lt by lia; done).
      by rewrite Permutation_cons_append.
Qed.

Lemma random_sample_Permutation (population : list A) g :
  (random_sample population (length population) g).1 ≡ₚ population.
Proof.
  unfold random_sample. rewrite sample_loop_Permutation by done.
  by rewrite firstn_all.
Qed.

End randomize.

Section randomize_piece_lists.
Import Outfit.

Lemma randomize_piece_list_eq self w pt :
  let list := deref (heap w) (piece_type_to_list self pt) in
  let sampled := random_sample list (length list) (rng w) in
  randomize_piece_list (self, w) pt
  = (set_piece_type_to_list self
       (<[pt := length (heap w)]> (piece_type_to_list self)),
     mkWorld (heap w ++ [sampled.1]) sampled.2).
Proof.
  intros list sampled. unfold randomize_piece_list. fold list. fold sampled.
  by destruct sampled.
Qed.

Lemma deref_app_l σ σ' r : r < length σ → deref (σ ++ σ') r = deref σ r.
Proof. intros Hr. unfold deref. by rewrite lookup_app_l. Qed.

Lemma randomize_fold pts self w :
  NoDup pts →
  (∀ pt, piece_type_to_list self pt < length (heap w)) →
  let r := foldl randomize_piece_list (self, w) pts in
  (∃ new, heap r.2 = heap w ++ new)
  ∧ (∀ pt, pt ∈ pts →
       length (heap w) ≤ piece_type_to_list r.1 pt
       ∧ deref (heap r.2) (piece_type_to_list r.1 pt)
         ≡ₚ deref (heap w) (piece_type_to_list self pt))
  ∧ (∀ pt, pt ∉ pts → piece_type_to_list r.1 pt = piece_type_to_list self pt)
  ∧ policy r.1 = policy self
  ∧ order r.1 = order self.
Proof.
  intros Hnd. revert self w.
  induction Hnd as [|pt0 pts Hpt0 Hnd IH]; intros self w Halloc; cbn zeta.
  - cbn. split; [exists []; by rewrite app_nil_r|].
    split; [by intros pt ?%elem_of_nil|]. done.
  - cbn [foldl]. rewrite randomize_piece_list_eq.
    set (list := deref (heap w) (piece_type_to_list self pt0)).
    set (sampled := random_sample list (length list) (rng w)).
    set (self1 := set_piece_type_to_list self _).
    set (w1 := mkWorld _ _).
    destruct (IH self1 w1) as ([new Hheap] & Hin & Hout & Hpol & Hord).
    { intros pt. cbn. rewrite length_app. cbn.
      destruct (decide (pt0 = pt)) as [->|?].
      - rewrite fn_lookup_insert. lia.
      - rewrite fn_lookup_insert_ne by done. specialize (Halloc pt). lia. }
    cbn [heap w1] in Hheap, Hin.
    split; [exists ([sampled.1] ++ new); by rewrite Hheap, <-(assoc_L (++))|].
    split; [|split; [|done]].
    + intros pt [->|Hpt]%elem_of_cons.
      * rewrite (Hout pt0 Hpt0). cbn. rewrite fn_lookup_insert.
        split; [done|]. rewrite Hheap. unfold deref at 1.
        rewrite lookup_app_l by (rewrite length_app; cbn; lia).
        rewrite lookup_app_r, Nat.sub_diag by done. cbn.
        apply random_sample_Permutation.
      * destruct (Hin pt Hpt) as [Hge ->]. rewrite length_app in Hge.
        split; [lia|]. cbn.
        rewrite fn_lookup_insert_ne by (by intros ->).
        by rewrite deref_app_l.
    + intros pt Hpt. rewrite Hout by (intros ?; apply Hpt; by right).
      cbn. rewrite fn_lookup_insert_ne; [done|].
      intros ->. apply Hpt. by left.
Qed.

Lemma NoDup_all : NoDup PieceType.all.
Proof. by apply (bool_decide_unpack _). Qed.

Lemma elem_of_all pt : pt ∈ PieceType.all.
Proof. unfold PieceType.all. rewrite !elem_of_cons. destruct pt; tauto. Qed.

(** C8: when every piece list of the closet is an object of the store,
    randomizing the generator built on the closet binds each piece type to
    a permutation of the closet's list of that type, held in a new list
    object; every list object that existed before, the closet's own lists
    among them, keeps its content and its order, and the policy keeps
    referring to the closet's lists. *)
Theorem randomize_piece_lists_permutes policy closet w :
  (∀ pt, closet_list closet pt < length (heap w)) →
  let r := randomize_piece_lists (Outfit.init policy closet) w in
  (∀ pt, deref (heap r.2) (piece_type_to_list r.1 pt)
         ≡ₚ deref (heap w) (closet_list closet pt))
  ∧ (∀ pt, length (heap w) ≤ piece_type_to_list r.1 pt)
  ∧ (∀ pt, deref (heap r.2) (closet_list closet pt)
           = deref (heap w) (closet_list closet pt))
  ∧ (∀ l, l < length (heap w) → heap r.2 !! l = heap w !! l)
  ∧ Outfit.policy r.1 = policy.
Proof.
  intros Halloc r.
  destruct (randomize_fold PieceType.all (Outfit.init policy closet) w
              NoDup_all Halloc) as ([new Hheap] & Hin & _ & Hpol & _).
  fold (randomize_piece_lists (Outfit.init policy closet) w) in Hheap, Hin, Hpol.
  fold r in Hheap, Hin, Hpol.
  split; [intros pt; by apply Hin, elem_of_all|].
  split; [intros pt; by apply Hin, elem_of_all|].
  split; [intros pt; by rewrite Hheap, deref_app_l|].
  split; [intros l Hl; by rewrite Hheap, lookup_app_l|done].
Qed.

End randomize_piece_lists.

(** * Properties of the search *)

Section containers.

Lemma pop_nil {A} (l : list A) : pop l = None ↔ l = [].
Proof.
  unfold pop. destruct (reverse l) as [|x r] eqn:Hr.
  - split; [intros _|done]. by rewrite <-(reverse_involutive l), Hr.
  - split; [done|]. intros ->. by rewrite reverse_nil in Hr.
Qed.

Lemma pop_snoc {A} (l l' : list A) x : pop l = Some (l', x) ↔ l = l' ++ [x].
Proof.
  unfold pop. split.
  - destruct (reverse l) as [|y r] eqn:Hr; [done|]. intros [= <- <-].
    by rewrite <-(reverse_involutive l), Hr, reverse_cons.
  - intros ->. by rewrite reverse_snoc, reverse_involutive.
Qed.

Lemma map_size_split (m : gmap PieceType.t Piece) pt :
  size m = (if m !! pt is Some _ then 1 else 0) + size (delete pt m).
Proof.
  rewrite map_size_delete. destruct (m !! pt) eqn:Hpt; [|done].
  assert (size m ≠ 0) by (apply (map_size_ne_0_lookup_2 m pt); by eexists).
  cbn. lia.
Qed.

(** [len(outfit)] counts the assigned piece types. *)
Lemma size_outfit (m : gmap PieceType.t Piece) :
  size m = (if m !! PieceType.top is Some _ then 1 else 0)
           + (if m !! PieceType.bottom is Some _ then 1 else 0)
           + (if m !! PieceType.jacket is Some _ then 1 else 0)
           + (if m !! PieceType.shoe is Some _ then 1 else 0).
Proof.
  rewrite (map_size_split m PieceType.top).
  rewrite (map_size_split (delete _ m) PieceType.bottom).
  rewrite (map_size_split (delete _ (delete _ m)) PieceType.jacket).
  rewrite (map_size_split (delete _ (delete _ (delete _ m))) PieceType.shoe).
  rewrite !lookup_delete_ne by done.
  match goal with |- context [size ?M] => assert (M = ∅) as -> end.
  { apply map_empty. intros []; by simplify_map_eq. }
  rewrite map_size_empty. lia.
Qed.

Lemma size_outfit_complete (m : gmap PieceType.t Piece) :
  size m = 4 ↔ ∀ pt, is_Some (m !! pt).
Proof.
  rewrite size_outfit. split.
  - intros Hsize pt.
    destruct (m !! PieceType.top) eqn:?, (m !! PieceType.bottom) eqn:?,
      (m !! PieceType.jacket) eqn:?, (m !! PieceType.shoe) eqn:?;
      cbn in Hsize; try lia.
    destruct pt; by eexists.
  - intros Hall.
    destruct (Hall PieceType.top) as [? ->], (Hall PieceType.bottom) as [? ->],
      (Hall PieceType.jacket) as [? ->], (Hall PieceType.shoe) as [? ->].
    done.
Qed.

End containers.

Section search.
Import Outfit.
Variable σ : store.
Variable self0 : Outfit.t.
Hypothesis order0 : order self0 = PieceType.all.

Local Abbreviation inv := (loop_invariant σ self0).

Lemma get_next_piece_type_all self pt :
  order self = PieceType.all →
  get_next_piece_type self pt
  = match pt with
    | PieceType.top => Ok PieceType.bottom
    | PieceType.bottom => Ok PieceType.jacket
    | PieceType.jacket => Ok PieceType.shoe
    | PieceType.shoe => Raise IndexError
    end.
Proof. intros Ho. unfold get_next_piece_type. rewrite Ho. by destruct pt. Qed.

Lemma get_next_piece_type_weight self pt next :
  order self = PieceType.all →
  get_next_piece_type self pt = Ok next →
  PieceType.to_nat next = S (PieceType.to_nat pt)
  ∧ weight σ self0 pt
    = 1 + length (candidates σ self0 next) * weight σ self0 next.
Proof.
  intros Ho. rewrite get_next_piece_type_all by done.
  destruct pt; intros [= <-]; done.
Qed.

Lemma stack_weight_snoc l x :
  stack_weight σ self0 (l ++ [x]) = stack_weight σ self0 l + weight σ self0 x.1.
Proof. unfold stack_weight. rewrite sum_list_with_app. cbn. lia. Qed.

Lemma stack_weight_push l pt (c : list Piece) :
  stack_weight σ self0 (l ++ ((λ p, (pt, p)) <$> c))
  = stack_weight σ self0 l + length c * weight σ self0 pt.
Proof.
  unfold stack_weight. rewrite sum_list_with_app. f_equal.
  induction c as [|p c IH]; cbn; [done|]. by rewrite IH.
Qed.

Lemma sorted_push pt (c : list Piece) :
  StronglySorted level_le ((λ p, (pt, p)) <$> c).
Proof.
  induction c as [|p c IH]; cbn; [constructor|].
  apply StronglySorted_cons. split; [|done].
  apply Forall_fmap, Forall_true. intros q. by hnf.
Qed.

Lemma is_valid_outfit_config pol outfit :
  same_config (is_valid_outfit pol outfit).2 pol.
Proof. apply set_piece_type_to_piece_config. Qed.

Lemma placeable_insert outfit pt p x :
  placeable σ self0 outfit x → placeable σ self0 (<[pt := p]> outfit) x.
Proof.
  intros [Hx Hbelow]. split; [done|]. intros pt' Hlt.
  apply lookup_insert_is_Some'. right. by apply Hbelow.
Qed.

(** The step of an iteration that continues: what it keeps and what it
    consumes. *)
Lemma loop_body_Continue s s' :
  inv s → loop_body σ s = Continue s' →
  inv s' ∧ stack_weight σ self0 (to_explore s') < stack_weight σ self0 (to_explore s).
Proof.
  intros [Ho Hl Hc Hsorted Hstack Hout]. unfold loop_body.
  destruct (pop (to_explore s)) as [[l [pt p]]|] eqn:Hpop; [|done].
  apply pop_snoc in Hpop. rewrite Hpop in Hsorted, Hstack |- *.
  apply StronglySorted_app in Hsorted as (Hle & Hsorted & _).
  apply Forall_app in Hstack as [Hstack [[Hp Hbelow] _]%Forall_cons].
  cbn in Hp, Hbelow.
  pose proof (is_valid_outfit_config (policy (this s)) (<[pt:=p]> (outfit s)))
    as Hc'.
  destruct (is_valid_outfit _ _) as [valid pol]. cbn in Hc'.
  assert (same_config pol (policy self0)) as Hc''
    by by eapply same_config_trans.
  destruct valid as [[]|e]; [| |done].
  - case_decide as Hsize; [done|].
    destruct (get_next_piece_type _ pt) as [next|] eqn:Hnext; [|done].
    apply get_next_piece_type_weight in Hnext as [Hlevel Hweight]; [|done].
    intros [= <-]. split.
    + split; cbn; try done.
      * apply StronglySorted_app. split_and!; [|done|apply sorted_push].
        intros x1 x2 Hx1 [q [-> _]]%list_elem_of_fmap.
        specialize (Hle x1 (pt, p) Hx1). unfold level_le in *. cbn in *.
        rewrite Hlevel. etrans; [apply Hle; left|lia].
      * apply Forall_app. split.
        -- eapply Forall_impl; [done|]. intros x. apply placeable_insert.
        -- apply Forall_fmap, Forall_forall. intros q Hq. split; cbn.
           ++ unfold candidates. by rewrite <-Hl.
           ++ intros pt' Hlt. apply lookup_insert_is_Some'.
              destruct (decide (pt = pt')) as [|Hne]; [by left|right].
              apply Hbelow.
              assert (PieceType.to_nat pt ≠ PieceType.to_nat pt')
                by (by destruct pt, pt'). lia.
      * intros pt' p' [[-> ->]|[_ ?]]%lookup_insert_Some; [done|by eapply Hout].
    + cbn [to_explore]. rewrite stack_weight_snoc, stack_weight_push.
      cbn [fst set_policy piece_type_to_list]. rewrite Hl.
      fold (candidates σ self0 next). lia.
  - intros [= <-]. split.
    + rewrite delete_insert_eq. split; cbn; try done.
      * apply Forall_forall. intros x Hin.
        destruct (proj1 (Forall_forall _ _) Hstack x Hin) as [Hx Hxb].
        split; [done|]. intros pt' Hlt.
        rewrite lookup_delete_ne; [by apply Hxb|]. intros <-.
        assert (level_le x (pt, p)) as Hlevel by (apply Hle; [done|left]).
        unfold level_le in Hlevel. cbn in Hlevel. lia.
      * intros pt' p' [_ ?]%lookup_delete_Some. by eapply Hout.
    + cbn [to_explore]. rewrite stack_weight_snoc. cbn. destruct pt; cbn; lia.
Qed.

(** The step of an iteration that leaves the loop. *)
Lemma loop_body_Return s r self' :
  inv s → loop_body σ s = Return r self' →
  (to_explore s = [] ∧ r = Raise exhausted)
  ∨ (∃ o, r = Ok o ∧ complete_outfit σ self0 o
          ∧ (is_valid_outfit (policy self0) o).1 = Ok true)
  ∨ (∃ e o, r = Raise e ∧ (is_valid_outfit (policy self0) o).1 = Raise e).
Proof.
  intros [Ho Hl Hc Hsorted Hstack Hout]. unfold loop_body.
  destruct (pop (to_explore s)) as [[l [pt p]]|] eqn:Hpop.
  2:{ intros [= <- <-]. left. by apply pop_nil in Hpop. }
  apply pop_snoc in Hpop. rewrite Hpop in Hstack.
  apply Forall_app in Hstack as [_ [[Hp Hbelow] _]%Forall_cons].
  cbn in Hp, Hbelow. cbv zeta.
  set (o := <[pt:=p]> (outfit s)).
  rewrite (is_valid_same_config _ _ _ _ _ _ Hc
           : is_valid_outfit (policy (this s)) o
             = is_valid_outfit (policy self0) o).
  destruct (is_valid_outfit (policy self0) o) as [valid pol] eqn:Hvalid.
  destruct valid as [[]|e]; [|done|].
  - case_decide as Hsize.
    + intros [= <- <-]. right; left. exists o. split; [done|].
      split; [|by rewrite Hvalid]. cbn in Hsize. rewrite Ho in Hsize.
      intros pt'. destruct (proj1 (size_outfit_complete o) Hsize pt') as [p' Hp'].
      exists p'. split; [done|]. subst o.
      apply lookup_insert_Some in Hp' as [[<- <-]|[_ ?]]; [done|by eapply Hout].
    + rewrite get_next_piece_type_all by done. destruct pt; try done.
      destruct Hsize. cbn. rewrite Ho. apply size_outfit_complete.
      intros pt'. subst o. apply lookup_insert_is_Some'.
      destruct pt'; [right; apply Hbelow; cbn; lia..|by left].
  - intros [= <- <-]. right; right. exists e, o. by rewrite Hvalid.
Qed.

Lemma while_Some fuel s r self' :
  inv s → while fuel σ s = Some (r, self') →
  r = Raise exhausted
  ∨ (∃ o, r = Ok o ∧ complete_outfit σ self0 o
          ∧ (is_valid_outfit (policy self0) o).1 = Ok true)
  ∨ (∃ e o, r = Raise e ∧ (is_valid_outfit (policy self0) o).1 = Raise e).
Proof.
  revert s. induction fuel as [|fuel IH]; intros s Hinv; [done|]. cbn.
  destruct (loop_body σ s) as [s'|r' self''] eqn:Hbody.
  - apply IH. by eapply loop_body_Continue.
  - intros [= <- <-].
    destruct (loop_body_Return s r' self'' Hinv Hbody) as [[_ ?]|?]; auto.
Qed.

Lemma while_terminates fuel s :
  inv s → stack_weight σ self0 (to_explore s) < fuel →
  is_Some (while fuel σ s).
Proof.
  revert s. induction fuel as [|fuel IH]; intros s Hinv Hfuel; [lia|]. cbn.
  destruct (loop_body σ s) as [s'|r' self''] eqn:Hbody; [|by eexists].
  destruct (loop_body_Continue s s' Hinv Hbody) as [Hinv' Hlt].
  apply IH; [done|lia].
Qed.

Lemma inv_init :
  inv (mkLoop self0
         ((λ p, (PieceType.top, p)) <$> candidates σ self0 PieceType.top) ∅).
Proof.
  split; cbn; [done|done|apply same_config_refl|apply sorted_push| |done].
  apply Forall_fmap, Forall_forall. intros p Hp. split; [done|].
  cbn. intros pt. lia.
Qed.

Lemma get_valid_outfit_while fuel :
  get_valid_outfit fuel σ self0
  = while fuel σ
      (mkLoop self0
         ((λ p, (PieceType.top, p)) <$> candidates σ self0 PieceType.top) ∅).
Proof. unfold get_valid_outfit. by rewrite order0. Qed.

Lemma get_valid_outfit_Some fuel r self' :
  get_valid_outfit fuel σ self0 = Some (r, self') →
  r = Raise exhausted
  ∨ (∃ o, r = Ok o ∧ complete_outfit σ self0 o
          ∧ (is_valid_outfit (policy self0) o).1 = Ok true)
  ∨ (∃ e o, r = Raise e ∧ (is_valid_outfit (policy self0) o).1 = Raise e).
Proof. rewrite get_valid_outfit_while. apply while_Some, inv_init. Qed.

Lemma get_valid_outfit_terminates fuel :
  iteration_bound σ self0 ≤ fuel → is_Some (get_valid_outfit fuel σ self0).
Proof.
  intros Hfuel. rewrite get_valid_outfit_while.
  apply while_terminates; [apply inv_init|]. cbn [to_explore].
  rewrite <-(app_nil_l (_ <$> _)), stack_weight_push.
  unfold iteration_bound in Hfuel. cbn in *. lia.
Qed.

End search.

Lemma while_more_fuel σ fuel k s x :
  Outfit.while fuel σ s = Some x → Outfit.while (fuel + k) σ s = Some x.
Proof.
  revert s. induction fuel as [|fuel IH]; intros s; [done|]. cbn.
  destruct (Outfit.loop_body σ s); [apply IH|done].
Qed.

(** C2: an outfit returned by the search of a generator with the piece
    order of [__init__] has exactly the four piece types assigned, each to a
    candidate of that type, and [is_valid] of the generator's policy,
    called on the top, the bottom, the jacket and the shoe of the outfit,
    returns True. *)
Theorem returned_outfit_complete_and_valid fuel σ self outfit self' :
  Outfit.order self = PieceType.all →
  Outfit.get_valid_outfit fuel σ self = Some (Ok outfit, self') →
  size outfit = 4
  ∧ complete_outfit σ self outfit
  ∧ ∃ top bottom jacket shoe,
      outfit !! PieceType.top = Some top
      ∧ outfit !! PieceType.bottom = Some bottom
      ∧ outfit !! PieceType.jacket = Some jacket
      ∧ outfit !! PieceType.shoe = Some shoe
      ∧ (OutfitPolicy.is_valid (Outfit.policy self)
           (Some top) (Some bottom) (Some jacket) (Some shoe)).1 = Ok true.
Proof.
  intros Horder Hsearch.
  destruct (get_valid_outfit_Some σ self Horder fuel _ _ Hsearch)
    as [?|[(o & [= <-] & Hcomplete & Hvalid)|(e & o & ? & _)]]; [done| |done].
  split.
  { apply size_outfit_complete. intros pt.
    destruct (Hcomplete pt) as (p & -> & _). by eexists. }
  split; [done|].
  destruct (Hcomplete PieceType.top) as (top & Htop & _).
  destruct (Hcomplete PieceType.bottom) as (bottom & Hbottom & _).
  destruct (Hcomplete PieceType.jacket) as (jacket & Hjacket & _).
  destruct (Hcomplete PieceType.shoe) as (shoe & Hshoe & _).
  exists top, bottom, jacket, shoe. split_and!; try done.
  unfold Outfit.is_valid_outfit in Hvalid.
  by rewrite Htop, Hbottom, Hjacket, Hshoe in Hvalid.
Qed.

Lemma init_consistent σ warmth comfort fancy required_piece closet policy :
  OutfitPolicy.init σ warmth comfort fancy required_piece closet = Ok policy →
  consistent policy.
Proof.
  unfold OutfitPolicy.init, consistent.
  destruct (truthy_str required_piece) eqn:Htruthy.
  - destruct (OutfitPolicy.get_piece_type_from_name _ _ _); [|done].
    intros [= <-]. by eexists.
  - intros [= <-]. cbn. congruence.
Qed.

Lemma randomize_piece_lists_frame pts self w :
  Outfit.policy (foldl Outfit.randomize_piece_list (self, w) pts).1
  = Outfit.policy self
  ∧ Outfit.order (foldl Outfit.randomize_piece_list (self, w) pts).1
    = Outfit.order self.
Proof.
  revert self w. induction pts as [|pt pts IH]; intros self w; [done|].
  cbn [foldl]. rewrite randomize_piece_list_eq.
  by destruct (IH (Outfit.set_piece_type_to_list self
                     (<[pt := length (heap w)]> (Outfit.piece_type_to_list self)))
                  (mkWorld (heap w ++ [(random_sample
                     (deref (heap w) (Outfit.piece_type_to_list self pt))
                     (length (deref (heap w) (Outfit.piece_type_to_list self pt)))
                     (rng w)).1])
                     (random_sample
                     (deref (heap w) (Outfit.piece_type_to_list self pt))
                     (length (deref (heap w) (Outfit.piece_type_to_list self pt)))
                     (rng w)).2)) as [-> ->].
Qed.

(** C9: for every closet, every configuration the policy can be constructed
    for and every random source, the search on the randomized lists leaves
    its loop within [iteration_bound] evaluations of the loop test: with that
    much fuel it has a result, which is the exhaustion error or an outfit
    with a candidate for each of the four piece types.  Empty lists are
    covered: they only lower the bound. *)
Theorem search_terminates σ g warmth comfort fancy required_piece closet policy
    fuel :
  OutfitPolicy.init σ warmth comfort fancy required_piece closet = Ok policy →
  let r := Outfit.randomize_piece_lists (Outfit.init policy closet)
             (mkWorld σ g) in
  iteration_bound (heap r.2) r.1 ≤ fuel →
  ∃ found self',
    Outfit.get_valid_outfit fuel (heap r.2) r.1 = Some (found, self')
    ∧ (found = Raise exhausted
       ∨ ∃ outfit, found = Ok outfit ∧ complete_outfit (heap r.2) r.1 outfit).
Proof.
  intros Hinit r Hfuel.
  destruct (randomize_piece_lists_frame PieceType.all
              (Outfit.init policy closet) (mkWorld σ g)) as [Hpol Horder].
  fold (Outfit.randomize_piece_lists (Outfit.init policy closet) (mkWorld σ g))
    in Hpol, Horder. fold r in Hpol, Horder. cbn in Hpol, Horder.
  destruct (get_valid_outfit_terminates (heap r.2) r.1 Horder fuel Hfuel)
    as [[found self'] Hsearch].
  exists found, self'. split; [done|].
  destruct (get_valid_outfit_Some _ _ Horder fuel _ _ Hsearch)
    as [?|[(o & -> & Hcomplete & _)|(e & o & _ & Hraise)]]; [by left|..].
  - right. by exists o.
  - rewrite Hpol in Hraise.
    destruct (is_valid_ok policy (o !! PieceType.top) (o !! PieceType.bottom)
                (o !! PieceType.jacket) (o !! PieceType.shoe)) as [b Hb].
    { by eapply init_consistent. }
    unfold Outfit.is_valid_outfit in Hraise. congruence.
Qed.

Lemma generate_Raise fuel self w e self' :
  let r := Outfit.randomize_piece_lists self w in
  Outfit.get_valid_outfit fuel (heap r.2) r.1 = Some (Raise e, self') →
  Outfit.generate fuel self w = Some (Raise e).
Proof.
  unfold Outfit.generate. destruct (Outfit.randomize_piece_lists self w).
  cbn. by intros ->.
Qed.

Lemma get_valid_outfit_more_fuel σ self fuel k x :
  Outfit.get_valid_outfit fuel σ self = Some x →
  Outfit.get_valid_outfit (fuel + k) σ self = Some x.
Proof.
  unfold Outfit.get_valid_outfit. destruct (Outfit.order self !! 0); [|done].
  apply while_more_fuel.
Qed.

(** C1, on a failing input: with the black tee, the skirt (blue) and the
    chinos (green), the parka (green) and the blazer (black), the sneakers
    (blue), no option set and the lists explored in closet order, the search
    raises the exhaustion error after eight evaluations of the loop test,
    and the program ends with it, although tee, skirt, blazer and sneakers
    form a complete outfit the policy accepts.  The green parka, accepted with the chinos, is still in
    the outfit when the skirt is tried. *)
Theorem search_gives_up_on_satisfiable_closet :
  ∃ policy,
    OutfitPolicy.init stale_store None None false None stale_closet = Ok policy
    ∧ let r := Outfit.randomize_piece_lists (Outfit.init policy stale_closet)
                 (mkWorld stale_store zeros) in
      (∀ k, fst <$> Outfit.get_valid_outfit (8 + k) (heap r.2) r.1
            = Some (Raise exhausted))
      ∧ (∀ k, Program.main (8 + k) None None false None stale_closet
                (mkWorld stale_store zeros)
              = Some (Raise exhausted))
      ∧ complete_outfit (heap r.2) r.1 overlooked_outfit
      ∧ (Outfit.is_valid_outfit policy overlooked_outfit).1 = Ok true.
Proof.
  eexists. split; [reflexivity|]. intros r.
  assert (∀ k, ∃ self',
    Outfit.get_valid_outfit (8 + k) (heap r.2) r.1
    = Some (Raise exhausted, self')) as Hgives_up.
  { intros k.
    destruct (Outfit.get_valid_outfit 8 (heap r.2) r.1) as [[found self']|]
      eqn:Hsearch; [|by vm_compute in Hsearch].
    rewrite (get_valid_outfit_more_fuel _ _ _ k _ Hsearch). exists self'.
    vm_compute in Hsearch. by injection Hsearch as <- _. }
  split; [|split; [|split]].
  - intros k. destruct (Hgives_up k) as [self' ->]. done.
  - intros k. destruct (Hgives_up k) as [self' Hsearch].
    by apply (generate_Raise _ _ _ _ _ Hsearch).
  - intros pt. destruct pt; eexists; (split; [reflexivity|]);
      apply list_elem_of_In; vm_compute; tauto.
  - by vm_compute.
Qed.

(** * The statements at concrete closets *)

Lemma is_valid_history_independent_witness :
  (is_valid_call
     (after_calls (twin_policy None None)
        [mkCall (Some (plain "tee" "black")) None None None])
     (mkCall None (Some (plain "skirt" "blue")) None None)).1
  = (is_valid_call
       (after_calls (twin_policy None None)
          [mkCall None None (Some (plain "parka" "green")) None;
           mkCall None None None (Some (plain "boots" "black"))])
       (mkCall None (Some (plain "skirt" "blue")) None None)).1
  ∧ OutfitPolicy.piece_type_to_piece
      (is_valid_call
         (after_calls (twin_policy None None)
            [mkCall (Some (plain "tee" "black")) None None None])
         (mkCall None (Some (plain "skirt" "blue")) None None)).2
    = OutfitPolicy.assignment None (Some (plain "skirt" "blue")) None None.
Proof.
  apply (is_valid_history_independent (twin_policy None None)
           (twin_policy None None)).
  repeat split; reflexivity.
Defined.

Lemma is_color_matched_iff_witness :
  let checked :=
    (OutfitPolicy.is_valid (twin_policy None None)
       (Some (plain "tee" "black")) (Some (plain "skirt" "blue")) None None).2 in
  (OutfitPolicy.is_color_matched checked = true
   ↔ size ({["blue"]} : gset string) ≤ 1)
  ∧ (OutfitPolicy.is_color_matched checked = false →
     (OutfitPolicy.is_valid (twin_policy None None)
        (Some (plain "tee" "black")) (Some (plain "skirt" "blue")) None None).1
     = Ok false).
Proof.
  apply (is_color_matched_iff (twin_policy None None)); [reflexivity|].
  intros c. rewrite elem_of_singleton. split.
  - intros ->. split.
    + rewrite !elem_of_cons, elem_of_nil. intros [?|[?|[?|[?|[?|[]]]]]]; done.
    + exists (plain "skirt" "blue"). split; [right; by left|reflexivity].
  - intros [Hc (p & [[= <-]|[[= <-]|[?|?]]] & <-)]; [|reflexivity|done..].
    destruct Hc. left.
Defined.

Lemma is_valid_warmth_witness :
  let unset := with_warmth_level (twin_policy None None) None in
  let set := with_warmth_level (twin_policy None None) (Some 2%Z) in
  let top := Some (plain "tee" "black") in
  let bottom := Some (plain "skirt" "blue") in
  (OutfitPolicy.is_valid unset (rewarm (λ _, 1%Z) <$> top)
     (rewarm (λ _, 1%Z) <$> bottom) (rewarm (λ _, 1%Z) <$> None)
     (rewarm (λ _, 1%Z) <$> None)).1
  = (OutfitPolicy.is_valid unset top bottom None None).1
  ∧ ((OutfitPolicy.is_valid set top bottom None None).1 = Ok true
     ↔ (∀ b, bottom = Some b → Attr.warmth (attributes b) = 2%Z)
       ∧ (∀ j, None = Some j → Attr.warmth (attributes j) = 2%Z)
       ∧ (OutfitPolicy.is_valid unset top bottom None None).1 = Ok true)
  ∧ (OutfitPolicy.is_valid set (rewarm (λ _, 1%Z) <$> top) bottom None
       (rewarm (λ _, 1%Z) <$> None)).1
    = (OutfitPolicy.is_valid set top bottom None None).1.
Proof.
  apply (is_valid_warmth (twin_policy None None) 2 (λ _, 1%Z)). lia.
Defined.

Lemma required_piece_check_witness :
  let self := twin_policy None (Some ("denim", PieceType.bottom)) in
  let checked :=
    (OutfitPolicy.is_valid self None (Some (plain "skirt" "blue")) None None).2 in
  let other_name :=
    ∃ p, OutfitPolicy.assignment None (Some (plain "skirt" "blue")) None None
           PieceType.bottom = Some p ∧ name p ≠ "denim" in
  (OutfitPolicy.contains_required_piece_for_piece_type checked = Ok false
   ↔ other_name)
  ∧ (OutfitPolicy.contains_required_piece_for_piece_type checked = Ok true
     ↔ ¬ other_name)
  ∧ (other_name →
     (OutfitPolicy.is_valid self None (Some (plain "skirt" "blue")) None None).1
     = Ok false).
Proof.
  apply (required_piece_check
           (twin_policy None (Some ("denim", PieceType.bottom))) "denim"
           PieceType.bottom);
    [reflexivity|discriminate|reflexivity].
Defined.

Lemma required_piece_first_match_witness :
  ∃ C,
    OutfitPolicy.required_piece_type
      (twin_policy None (Some ("denim", PieceType.bottom))) = Some C
    ∧ (∃ p, p ∈ deref twin_store (closet_list stale_closet C)
            ∧ name p = "denim")
    ∧ (∀ C' p, p ∈ deref twin_store (closet_list stale_closet C') →
               name p = "denim" → PieceType.to_nat C ≤ PieceType.to_nat C')
    ∧ ∀ top bottom jacket shoe,
        OutfitPolicy.contains_required_piece_for_piece_type
          (OutfitPolicy.is_valid
             (twin_policy None (Some ("denim", PieceType.bottom)))
             top bottom jacket shoe).2 = Ok false
        ↔ ∃ p, OutfitPolicy.assignment top bottom jacket shoe C = Some p
               ∧ name p ≠ "denim".
Proof.
  apply (proj1 (required_piece_first_match twin_store None None false "denim"
                  stale_closet));
    [discriminate|reflexivity].
Defined.

Lemma init_raises_iff_name_missing_witness :
  (∃ msg, OutfitPolicy.init twin_store None None false (Some "scarf")
            stale_closet = Raise (ArgumentTypeError msg))
  ∧ (∀ g, ∃ msg,
       Program.main 0 None None false (Some "scarf") stale_closet
         (mkWorld twin_store g)
       = Some (Raise (ArgumentTypeError msg))).
Proof.
  assert ("scarf" ≠ "") as Hset by discriminate.
  assert (¬ name_in_closet twin_store stale_closet "scarf") as Hmissing.
  { intros (pt & p & Hp & Hname).
    destruct pt; apply list_elem_of_In in Hp; vm_compute in Hp;
      destruct Hp as [<-|[]]; discriminate Hname. }
  destruct (init_raises_iff_name_missing twin_store None None false "scarf"
              stale_closet) as (_ & Hraise & _ & _ & Hmain).
  split; [apply Hraise; by split|by apply Hmain].
Defined.

Lemma randomize_piece_lists_permutes_witness :
  let r := Outfit.randomize_piece_lists
             (Outfit.init (twin_policy None None) stale_closet)
             (mkWorld stale_store zeros) in
  (∀ pt, deref (heap r.2) (Outfit.piece_type_to_list r.1 pt)
         ≡ₚ deref stale_store (closet_list stale_closet pt))
  ∧ (∀ pt, length stale_store ≤ Outfit.piece_type_to_list r.1 pt)
  ∧ (∀ pt, deref (heap r.2) (closet_list stale_closet pt)
           = deref stale_store (closet_list stale_closet pt))
  ∧ (∀ l, l < length stale_store → heap r.2 !! l = stale_store !! l)
  ∧ Outfit.policy r.1 = twin_policy None None.
Proof.
  apply (randomize_piece_lists_permutes (twin_policy None None) stale_closet
           (mkWorld stale_store zeros)).
  intros pt. destruct pt; vm_compute; lia.
Defined.

Lemma returned_outfit_complete_and_valid_witness :
  let self := Outfit.init (twin_policy None None) stale_closet in
  let outfit : gmap PieceType.t Piece :=
    <[PieceType.top := plain "tee" "black"]>
      (<[PieceType.bottom := plain "denim" "jeanblue"]>
         (<[PieceType.jacket := plain "denim" "jeanblue"]>
            (<[PieceType.shoe := plain "boots" "black"]> ∅))) in
  size outfit = 4
  ∧ complete_outfit twin_store self outfit
  ∧ ∃ top bottom jacket shoe,
      outfit !! PieceType.top = Some top
      ∧ outfit !! PieceType.bottom = Some bottom
      ∧ outfit !! PieceType.jacket = Some jacket
      ∧ outfit !! PieceType.shoe = Some shoe
      ∧ (OutfitPolicy.is_valid (Outfit.policy self)
           (Some top) (Some bottom) (Some jacket) (Some shoe)).1 = Ok true.
Proof.
  intros self outfit.
  eapply (returned_outfit_complete_and_valid 4 twin_store self outfit);
    [reflexivity|vm_compute; reflexivity].
Defined.

Lemma search_terminates_witness :
  let r := Outfit.randomize_piece_lists
             (Outfit.init (twin_policy (Some 2%Z) None) stale_closet)
             (mkWorld stale_store zeros) in
  ∃ found self',
    Outfit.get_valid_outfit 12 (heap r.2) r.1 = Some (found, self')
    ∧ (found = Raise exhausted
       ∨ ∃ outfit, found = Ok outfit ∧ complete_outfit (heap r.2) r.1 outfit).
Proof.
  apply (search_terminates stale_store zeros (Some 2%Z) None false None
           stale_closet (twin_policy (Some 2%Z) None) 12);
    [reflexivity|vm_compute; lia].
Defined.

(** * Further properties of the policy evaluator and of the search *)

Section policy_checks.
Import OutfitPolicy.

Lemma and_then_Ok a b : Ok a &&& Ok b = Ok (a && b).
Proof. by destruct a. Qed.

Lemma gset_size_le_1 (X : gset string) :
  size X ≤ 1 ↔ ∀ x y, x ∈ X → y ∈ X → x = y.
Proof.
  split.
  - intros Hsize x y Hx Hy.
    apply (size_singleton_inv X x y); [|done..].
    assert (size X ≠ 0); [|lia].
    apply size_non_empty_iff. intros Hempty. rewrite Hempty in Hx.
    by apply not_elem_of_empty in Hx.
  - intros Hone. destruct (set_choose_or_empty X) as [[x Hx]|Hempty].
    + assert (X = {[x]}) as ->; [|by rewrite size_singleton].
      apply set_eq. intros y. rewrite elem_of_singleton. split.
      * intros Hy. by apply Hone.
      * by intros ->.
    + apply size_empty_iff in Hempty. lia.
Qed.

Lemma assigned_values top bottom jacket shoe p :
  Some p ∈ values (assignment top bottom jacket shoe)
  ↔ assigned top bottom jacket shoe p.
Proof. apply elem_of_values_assignment. Qed.

Lemma is_color_matched_pairwise self :
  is_color_matched self = true
  ↔ ∀ p q, Some p ∈ values (piece_type_to_piece self) →
           Some q ∈ values (piece_type_to_piece self) →
           Attr.color (attributes p) ∉ neutral_colors self →
           Attr.color (attributes q) ∉ neutral_colors self →
           Attr.color (attributes p) = Attr.color (attributes q).
Proof.
  unfold is_color_matched. rewrite bool_decide_eq_true, gset_size_le_1.
  setoid_rewrite elem_of_list_to_set.
  setoid_rewrite elem_of_non_neutral_colors.
  setoid_rewrite elem_of_nil. split.
  - intros Hone p q Hp Hq Hcp Hcq. apply Hone; right; eauto.
  - intros Hpair x y [[]|(Hx & p & Hp & <-)] [[]|(Hy & q & Hq & <-)].
    by apply Hpair.
Qed.

Lemma meets_comfort_level_loop_Some (l : Z) pieces :
  ∃ b, meets_comfort_level_loop (Some l) pieces = Ok b
       ∧ (b = true
          ↔ ∀ p, Some p ∈ pieces → (l ≤ Attr.comfort (attributes p))%Z).
Proof.
  induction pieces as [|[q|] pieces (b & IH & Hb)]; cbn.
  - exists true. split; [done|]. split; [|done].
    intros _ p Hp. by apply elem_of_nil in Hp.
  - destruct (Z.ltb_spec (Attr.comfort (attributes q)) l) as [Hlt|Hge].
    + exists false. split; [done|]. split; [done|].
      intros Hall. specialize (Hall q (list_elem_of_here _ _)). lia.
    + exists b. split; [done|]. rewrite Hb. split.
      * intros Hall p [[= ->]|Hp]%elem_of_cons; [done|by apply Hall].
      * intros Hall p Hp. apply Hall. by right.
  - exists b. split; [done|]. rewrite Hb. split.
    + intros Hall p [?|Hp]%elem_of_cons; [done|by apply Hall].
    + intros Hall p Hp. apply Hall. by right.
Qed.

Lemma meets_comfort_level_loop_None pieces :
  (meets_comfort_level_loop None pieces = Raise TypeError
   ∧ ∃ p, Some p ∈ pieces)
  ∨ (meets_comfort_level_loop None pieces = Ok true
     ∧ ¬ ∃ p, Some p ∈ pieces).
Proof.
  induction pieces as [|[q|] pieces IH]; cbn.
  - right. split; [done|]. intros [p Hp]. by apply elem_of_nil in Hp.
  - left. split; [done|]. exists q. left.
  - destruct IH as [[-> [p Hp]]|[-> Hnone]].
    + left. split; [done|]. exists p. by right.
    + right. split; [done|]. intros [p [?|Hp]%elem_of_cons]; [done|].
      apply Hnone. by exists p.
Qed.

Lemma is_fancy_loop_true pieces :
  is_fancy_loop pieces = true
  ↔ ∀ p, Some p ∈ pieces → Attr.fancy (attributes p) = true.
Proof.
  induction pieces as [|[q|] pieces IH]; cbn.
  - split; [|done]. intros _ p Hp. by apply elem_of_nil in Hp.
  - destruct (Attr.fancy (attributes q)) eqn:Hq; cbn.
    + rewrite IH. split.
      * intros Hall p [[= ->]|Hp]%elem_of_cons; [done|by apply Hall].
      * intros Hall p Hp. apply Hall. by right.
    + split; [done|]. intros Hall.
      specialize (Hall q (list_elem_of_here _ _)). congruence.
  - rewrite IH. split.
    + intros Hall p [?|Hp]%elem_of_cons; [done|by apply Hall].
    + intros Hall p Hp. apply Hall. by right.
Qed.

Lemma has_silhouette_true top bottom :
  has_silhouette top bottom = true
  ↔ ∀ t b, top = Some t → bottom = Some b →
           Attr.loose (attributes t) = true →
           Attr.loose (attributes b) = false.
Proof.
  unfold has_silhouette. destruct top as [t|], bottom as [b|]; cbn;
    [|split; [by intros|done]..].
  rewrite negb_true_iff, andb_false_iff. split.
  - intros [Ht|Hb] ? ? [= <-] [= <-] ?; congruence.
  - intros Hall. destruct (Attr.loose (attributes t)) eqn:Ht; [right|by left].
    by apply (Hall t b).
Qed.

Lemma is_valid_accepted self top bottom jacket shoe :
  consistent self →
  (is_valid self top bottom jacket shoe).1 = Ok true
  ↔ accepted self top bottom jacket shoe.
Proof.
  intros Hcons. unfold is_valid, accepted.
  cbn -[is_color_matched meets_comfort_level is_fancy and_then
    contains_required_piece_for_piece_type meets_warmth_level has_silhouette].
  set (checked := set_piece_type_to_piece self _).
  assert (∃ bc, (if negb (truthy_int (comfort_level self)) then Ok true
                 else meets_comfort_level checked) = Ok bc
           ∧ (bc = true ↔
              (truthy_int (comfort_level self) = true →
               ∀ p, assigned top bottom jacket shoe p →
                    ∃ l, comfort_level self = Some l
                         ∧ (l ≤ Attr.comfort (attributes p))%Z)))
    as (bc & -> & Hbc).
  { destruct (truthy_int (comfort_level self)) eqn:Htr; cbn [negb].
    - destruct (comfort_level self) as [l|] eqn:Hl; [|done].
      unfold meets_comfort_level.
      change (comfort_level checked) with (comfort_level self). rewrite Hl.
      destruct (meets_comfort_level_loop_Some l
                  (values (piece_type_to_piece checked))) as (b & -> & Hb).
      exists b. split; [done|]. rewrite Hb.
      setoid_rewrite assigned_values. split.
      + intros Hall _ p Hp. exists l. split; [done|by apply Hall].
      + intros Hall p Hp. destruct (Hall eq_refl p Hp) as (l' & [= <-] & ?).
        done.
    - exists true. split; [done|]. split; [done|]. done. }
  assert (∃ br, (if negb (truthy_str (required_piece self)) then Ok true
                 else contains_required_piece_for_piece_type checked) = Ok br
           ∧ (br = true ↔
              (truthy_str (required_piece self) = true →
               ∀ C p, required_piece_type self = Some C →
                      assignment top bottom jacket shoe C = Some p →
                      Some (name p) = required_piece self)))
    as (br & -> & Hbr).
  { destruct (truthy_str (required_piece self)) eqn:Htr; cbn [negb].
    - destruct (Hcons Htr) as [C HC].
      destruct (required_piece self) as [n|] eqn:Hn; [|done].
      destruct (contains_required_piece_spec checked n C) as (b & -> & Hb);
        [done..|].
      exists b. split; [done|].
      change (piece_type_to_piece checked C)
        with (assignment top bottom jacket shoe C) in Hb. split.
      + intros -> _ C' p HC' Hp. rewrite HC in HC'. injection HC' as <-.
        destruct (decide (name p = n)) as [->|Hne]; [done|].
        assert (true = false); [|done]. apply Hb. by exists p.
      + intros Hall. destruct b; [done|].
        destruct (proj1 Hb eq_refl) as (p & Hp & Hne).
        specialize (Hall eq_refl C p HC Hp). congruence.
    - exists true. split; [done|]. split; [done|]. done. }
  assert ((if negb (truthy_int (warmth_level self)) then Ok true
           else Ok (meets_warmth_level checked bottom jacket))
          = Ok (negb (truthy_int (warmth_level self))
                || meets_warmth_level checked bottom jacket)) as ->
    by by destruct (truthy_int (warmth_level self)).
  assert ((if negb (fancy self) then Ok true else Ok (is_fancy checked))
          = Ok (negb (fancy self) || is_fancy checked)) as ->
    by by destruct (fancy self).
  rewrite !and_then_Ok.
  assert (∀ b, Ok b = Ok true ↔ b = true) as -> by (intros b; naive_solver).
  rewrite !andb_true_iff, !orb_true_iff, !negb_true_iff.
  rewrite is_color_matched_pairwise, has_silhouette_true, Hbc, Hbr.
  unfold is_fancy. rewrite is_fancy_loop_true.
  change (piece_type_to_piece checked)
    with (assignment top bottom jacket shoe).
  change (neutral_colors checked) with (neutral_colors self).
  setoid_rewrite assigned_values.
  assert ((truthy_int (warmth_level self) = false
           ∨ meets_warmth_level checked bottom jacket = true)
          ↔ (truthy_int (warmth_level self) = true →
             ∀ p, bottom = Some p ∨ jacket = Some p →
                  Some (Attr.warmth (attributes p)) = warmth_level self))
    as ->.
  { unfold meets_warmth_level.
    change (warmth_level checked) with (warmth_level self).
    destruct (truthy_int (warmth_level self)); [|naive_solver].
    rewrite andb_true_iff.
    destruct bottom as [b|], jacket as [j|];
      rewrite ?bool_decide_eq_true; naive_solver. }
  assert ((fancy self = false
           ∨ ∀ p, assigned top bottom jacket shoe p →
                  Attr.fancy (attributes p) = true)
          ↔ (fancy self = true →
             ∀ p, assigned top bottom jacket shoe p →
                  Attr.fancy (attributes p) = true)) as ->.
  { destruct (fancy self); naive_solver. }
  tauto.
Qed.

Lemma assigned_sub top bottom jacket shoe top' bottom' jacket' shoe' p :
  sub_piece top' top → sub_piece bottom' bottom →
  sub_piece jacket' jacket → sub_piece shoe' shoe →
  assigned top' bottom' jacket' shoe' p → assigned top bottom jacket shoe p.
Proof.
  unfold sub_piece, assigned.
  intros [->| ->] [->| ->] [->| ->] [->| ->]; naive_solver.
Qed.

Lemma accepted_sub self top bottom jacket shoe top' bottom' jacket' shoe' :
  sub_piece top' top → sub_piece bottom' bottom →
  sub_piece jacket' jacket → sub_piece shoe' shoe →
  accepted self top bottom jacket shoe →
  accepted self top' bottom' jacket' shoe'.
Proof.
  intros Ht Hb Hj Hs (Hcolor & Hloose & Hwarm & Hcomfort & Hfancy & Hreq).
  pose proof (λ p, assigned_sub _ _ _ _ _ _ _ _ p Ht Hb Hj Hs) as Hsub.
  split_and!.
  - intros p q Hp Hq. apply Hcolor; by apply Hsub.
  - intros t b -> ->. apply Hloose.
    + by destruct Ht.
    + by destruct Hb.
  - intros Hset p [->| ->]; apply (Hwarm Hset).
    + left. by destruct Hb.
    + right. by destruct Hj.
  - intros Hset p Hp. by apply (Hcomfort Hset), Hsub.
  - intros Hset p Hp. by apply (Hfancy Hset), Hsub.
  - intros Hset C p HC Hp. apply (Hreq Hset C p HC).
    destruct C; cbn in *.
    + by destruct Ht as [->| ->].
    + by destruct Hb as [->| ->].
    + by destruct Hj as [->| ->].
    + by destruct Hs as [->| ->].
Qed.

(** X1: on a policy whose required piece type is assigned whenever the
    required piece is set, [is_valid] accepts an assignment exactly when the
    assigned pieces have at most one color outside the neutral colors, top
    and bottom are not both loose, and every active option holds: warmth
    equal to the level for bottom and jacket, comfort at least the level,
    every piece fancy, and the piece of the required type named as
    required; otherwise it returns False. *)
Theorem is_valid_accepts_iff self top bottom jacket shoe :
  consistent self →
  ((is_valid self top bottom jacket shoe).1 = Ok true
   ↔ accepted self top bottom jacket shoe)
  ∧ ((is_valid self top bottom jacket shoe).1 = Ok false
     ↔ ¬ accepted self top bottom jacket shoe).
Proof.
  intros Hcons.
  pose proof (is_valid_accepted self top bottom jacket shoe Hcons) as Hacc.
  destruct (is_valid_ok self top bottom jacket shoe Hcons) as [v Hv].
  rewrite Hv in Hacc |- *. split; [done|]. rewrite <-Hacc.
  destruct v; split; congruence.
Qed.

Lemma is_valid_sub self top bottom jacket shoe top' bottom' jacket' shoe' :
  consistent self →
  sub_piece top' top → sub_piece bottom' bottom →
  sub_piece jacket' jacket → sub_piece shoe' shoe →
  (is_valid self top bottom jacket shoe).1 = Ok true →
  (is_valid self top' bottom' jacket' shoe').1 = Ok true.
Proof.
  intros Hcons Ht Hb Hj Hs. rewrite !is_valid_accepted by done.
  by apply accepted_sub.
Qed.

(** X2: what [is_valid] accepts it accepts with any of the pieces taken
    away: the evaluation of a partial outfit never rejects a prefix of an
    acceptable outfit. *)
Theorem is_valid_sub_assignment self top bottom jacket shoe
    top' bottom' jacket' shoe' :
  consistent self →
  sub_piece top' top → sub_piece bottom' bottom →
  sub_piece jacket' jacket → sub_piece shoe' shoe →
  (is_valid self top bottom jacket shoe).1 = Ok true →
  (is_valid self top' bottom' jacket' shoe').1 = Ok true.
Proof.
  intros Hcons Htop Hbottom Hjacket Hshoe.
  rewrite !is_valid_accepted by done. by apply accepted_sub.
Qed.

(** X3: the comfort check run on the assignment of a call.  With a level
    it returns a boolean, true exactly when every assigned piece has at
    least that comfort; without a level it raises [TypeError] as soon as a
    piece is assigned and returns true on the empty assignment. *)
Theorem meets_comfort_level_spec self top bottom jacket shoe :
  let checked := (is_valid self top bottom jacket shoe).2 in
  match comfort_level self with
  | Some l =>
      ∃ b, meets_comfort_level checked = Ok b
           ∧ (b = true ↔
              ∀ p, assigned top bottom jacket shoe p →
                   (l ≤ Attr.comfort (attributes p))%Z)
  | None =>
      (meets_comfort_level checked = Raise TypeError
       ∧ ∃ p, assigned top bottom jacket shoe p)
      ∨ (meets_comfort_level checked = Ok true
         ∧ ¬ ∃ p, assigned top bottom jacket shoe p)
  end.
Proof.
  intros checked. unfold meets_comfort_level.
  change (comfort_level checked) with (comfort_level self).
  change (piece_type_to_piece checked)
    with (assignment top bottom jacket shoe).
  destruct (comfort_level self) as [l|].
  - destruct (meets_comfort_level_loop_Some l
                (values (assignment top bottom jacket shoe)))
      as (b & Hloop & Hb).
    exists b. split; [done|]. rewrite Hb.
    by setoid_rewrite assigned_values.
  - destruct (meets_comfort_level_loop_None
                (values (assignment top bottom jacket shoe)))
      as [[Hloop Hp]|[Hloop Hp]]; setoid_rewrite assigned_values in Hp;
      [by left|by right].
Qed.

End policy_checks.

(** X4: on a policy object constructed by [__init__], whatever calls it has
    served, [is_valid] returns a boolean: neither the read of
    [required_piece_type] nor the comparison with [comfort_level] raises. *)
Theorem is_valid_never_raises σ warmth comfort fancy required_piece closet
    policy (cs : list call) (c : call) :
  OutfitPolicy.init σ warmth comfort fancy required_piece closet = Ok policy →
  ∃ b, (is_valid_call (after_calls policy cs) c).1 = Ok b.
Proof.
  intros Hinit. apply is_valid_ok.
  destruct (after_calls_config policy cs) as (_ & _ & _ & -> & _ & -> & _).
  by eapply init_consistent.
Qed.

Section search_more.
Import Outfit.

Lemma index_Some x l i :
  index x l = Some i
  ↔ l !! i = Some x ∧ ∀ j, j < i → l !! j ≠ Some x.
Proof.
  revert i. induction l as [|y l IH]; intros i; cbn.
  - split; [done|]. by intros [? _].
  - case_decide as Hy.
    + subst y. split.
      * intros [= <-]. split; [done|]. intros j ?. lia.
      * intros [Hi Hfirst]. destruct i as [|i]; [done|].
        by destruct (Hfirst 0 ltac:(lia)).
    + destruct (index x l) as [k|]; cbn.
      * split.
        -- intros [= <-]. destruct (proj1 (IH k) eq_refl) as [Hk Hfirst].
           split; [done|].
           intros [|j] Hj; cbn; [congruence|]. apply Hfirst. lia.
        -- intros [Hi Hfirst]. destruct i as [|i]; cbn in Hi; [congruence|].
           assert (Some k = Some i) as [= ->]; [|done]. apply IH.
           split; [done|]. intros j Hj. apply (Hfirst (S j)). lia.
      * split; [done|]. intros [Hi Hfirst].
        destruct i as [|i]; cbn in Hi; [congruence|].
        assert (None = Some i) as Hi'; [|congruence].
        apply IH. split; [done|]. intros j Hj. apply (Hfirst (S j)). lia.
Qed.

Lemma index_None x l : index x l = None ↔ x ∉ l.
Proof.
  induction l as [|y l IH]; cbn.
  - split; [intros _; apply not_elem_of_nil|done].
  - rewrite not_elem_of_cons. case_decide as Hy.
    + split; [done|]. intros [? _]. congruence.
    + destruct (index x l); cbn.
      * split; [done|]. intros [_ Hl]. by apply IH in Hl.
      * split; [|done]. intros _. split; [congruence|by apply IH].
Qed.

(** X5: [__get_next_piece_type] returns the entry of [order] that follows
    the first occurrence of the current piece type; it raises [ValueError]
    when the type does not occur and [IndexError] when its first occurrence
    is the last entry. *)
Theorem get_next_piece_type_spec self curr :
  match get_next_piece_type self curr with
  | Ok next =>
      ∃ i, order self !! i = Some curr
           ∧ (∀ j, j < i → order self !! j ≠ Some curr)
           ∧ order self !! (i + 1) = Some next
  | Raise e =>
      (e = ValueError ∧ curr ∉ order self)
      ∨ (e = IndexError
         ∧ ∃ i, order self !! i = Some curr
                ∧ (∀ j, j < i → order self !! j ≠ Some curr)
                ∧ length (order self) ≤ i + 1)
  end.
Proof.
  unfold get_next_piece_type.
  destruct (index curr (order self)) as [i|] eqn:Hi.
  - apply index_Some in Hi as [Hi Hfirst].
    destruct (order self !! (i + 1)) as [next|] eqn:Hnext.
    + by exists i.
    + right. split; [done|]. exists i. split; [done|]. split; [done|].
      by apply lookup_ge_None.
  - left. split; [done|]. by apply index_None.
Qed.

Variable σ : store.
Variable self0 : Outfit.t.
Hypothesis order0 : order self0 = PieceType.all.

Lemma loop_body_Return_frame s r self' :
  loop_invariant σ self0 s → loop_body σ s = Return r self' →
  order self' = order self0
  ∧ piece_type_to_list self' = piece_type_to_list self0
  ∧ same_config (policy self') (policy self0).
Proof.
  intros [Ho Hl Hc _ _ _]. unfold loop_body.
  destruct (pop (to_explore s)) as [[l [pt p]]|].
  2:{ intros [= _ <-]. by rewrite Ho, order0. }
  pose proof (is_valid_outfit_config (policy (this s)) (<[pt:=p]> (outfit s)))
    as Hc'.
  destruct (is_valid_outfit _ _) as [valid pol]. cbn in Hc'.
  assert (order (set_policy (this s) pol) = order self0
          ∧ piece_type_to_list (set_policy (this s) pol)
            = piece_type_to_list self0
          ∧ same_config (policy (set_policy (this s) pol)) (policy self0))
    as Hframe.
  { cbn. rewrite Ho, order0. split; [done|]. split; [done|].
    by eapply same_config_trans. }
  destruct valid as [[]|e]; [|done|by intros [= _ <-]].
  case_decide; [by intros [= _ <-]|].
  destruct (get_next_piece_type _ pt); [done|by intros [= _ <-]].
Qed.

Lemma while_frame fuel s r self' :
  loop_invariant σ self0 s → while fuel σ s = Some (r, self') →
  order self' = order self0
  ∧ piece_type_to_list self' = piece_type_to_list self0
  ∧ same_config (policy self') (policy self0).
Proof.
  revert s. induction fuel as [|fuel IH]; intros s Hinv; [done|]. cbn.
  destruct (loop_body σ s) as [s'|r' self''] eqn:Hbody.
  - apply IH. by eapply loop_body_Continue.
  - intros [= <- <-]. by eapply loop_body_Return_frame.
Qed.

End search_more.

(** X6: the search leaves the generator as it found it, but for the cache of
    its policy: the order, the candidate lists and the configuration of the
    policy of the generator it ends with are those it started with. *)
Theorem get_valid_outfit_frame fuel σ self found self' :
  Outfit.order self = PieceType.all →
  Outfit.get_valid_outfit fuel σ self = Some (found, self') →
  Outfit.order self' = Outfit.order self
  ∧ Outfit.piece_type_to_list self' = Outfit.piece_type_to_list self
  ∧ same_config (Outfit.policy self') (Outfit.policy self).
Proof.
  intros Horder. rewrite get_valid_outfit_while by done.
  apply while_frame; [done|by apply inv_init].
Qed.

(** X7: when some piece type has no candidate, the search raises the
    exhaustion error; with no top it does so at the first loop test
    ([iteration_bound] is then 1). *)
Theorem empty_category_exhausts fuel σ self pt :
  Outfit.order self = PieceType.all →
  consistent (Outfit.policy self) →
  candidates σ self pt = [] →
  iteration_bound σ self ≤ fuel →
  ∃ self', Outfit.get_valid_outfit fuel σ self = Some (Raise exhausted, self').
Proof.
  intros Horder Hcons Hempty Hfuel.
  destruct (get_valid_outfit_terminates σ self Horder fuel Hfuel)
    as [[found self'] Hsearch].
  exists self'. rewrite Hsearch. do 2 f_equal.
  destruct (get_valid_outfit_Some σ self Horder fuel _ _ Hsearch)
    as [?|[(o & _ & Hcomplete & _)|(e & o & _ & Hraise)]]; [done|..].
  - destruct (Hcomplete pt) as (p & _ & Hp). rewrite Hempty in Hp.
    by apply elem_of_nil in Hp.
  - destruct (is_valid_ok (Outfit.policy self) (o !! PieceType.top)
                (o !! PieceType.bottom) (o !! PieceType.jacket)
                (o !! PieceType.shoe) Hcons) as [b Hb].
    unfold Outfit.is_valid_outfit in Hraise. congruence.
Qed.

(** X8: the four pieces of a returned outfit meet every active constraint
    of the policy, as conditions on their attributes. *)
Theorem returned_outfit_accepted fuel σ self outfit self' :
  Outfit.order self = PieceType.all →
  consistent (Outfit.policy self) →
  Outfit.get_valid_outfit fuel σ self = Some (Ok outfit, self') →
  ∃ t b j s,
    outfit !! PieceType.top = Some t
    ∧ outfit !! PieceType.bottom = Some b
    ∧ outfit !! PieceType.jacket = Some j
    ∧ outfit !! PieceType.shoe = Some s
    ∧ accepted (Outfit.policy self) (Some t) (Some b) (Some j) (Some s).
Proof.
  intros Horder Hcons Hsearch.
  destruct (get_valid_outfit_Some σ self Horder fuel _ _ Hsearch)
    as [?|[(o & [= <-] & Hcomplete & Hvalid)|(e & o & ? & _)]]; [done| |done].
  destruct (Hcomplete PieceType.top) as (t & Ht & _).
  destruct (Hcomplete PieceType.bottom) as (b & Hb & _).
  destruct (Hcomplete PieceType.jacket) as (j & Hj & _).
  destruct (Hcomplete PieceType.shoe) as (s & Hs & _).
  exists t, b, j, s. split_and!; try done.
  apply is_valid_accepted; [done|].
  unfold Outfit.is_valid_outfit in Hvalid. by rewrite Ht, Hb, Hj, Hs in Hvalid.
Qed.

Section first_path.
Import Outfit.

Lemma loop_body_valid σ s l pt p :
  to_explore s = l ++ [(pt, p)] →
  (is_valid_outfit (policy (this s)) (<[pt:=p]> (outfit s))).1 = Ok true →
  loop_body σ s
  = (let o := <[pt:=p]> (outfit s) in
     let self :=
       set_policy (this s) (is_valid_outfit (policy (this s)) o).2 in
     if decide (size o = length (order self)) then Return (Ok o) self
     else
       match get_next_piece_type self pt with
       | Raise e => Return (Raise e) self
       | Ok next =>
           Continue (mkLoop self
             (l ++ ((λ p, (next, p)) <$> deref σ (piece_type_to_list self next)))
             o)
       end).
Proof.
  intros Hstack Hvalid. unfold loop_body.
  rewrite (proj2 (pop_snoc _ _ _) Hstack). cbv zeta.
  destruct (is_valid_outfit _ _) as [v pol]. cbn in Hvalid. by subst v.
Qed.

(** One accepted placement that does not complete the outfit. *)
Lemma while_descend fuel σ s l pt p next c :
  order (this s) = PieceType.all →
  to_explore s = l ++ [(pt, p)] →
  (is_valid_outfit (policy (this s)) (<[pt:=p]> (outfit s))).1 = Ok true →
  size (<[pt:=p]> (outfit s)) ≠ 4 →
  get_next_piece_type (this s) pt = Ok next →
  c = deref σ (piece_type_to_list (this s) next) →
  ∃ self',
    order self' = PieceType.all
    ∧ piece_type_to_list self' = piece_type_to_list (this s)
    ∧ same_config (policy self') (policy (this s))
    ∧ while (S fuel) σ s
      = while fuel σ
          (mkLoop self' (l ++ ((λ p, (next, p)) <$> c)) (<[pt:=p]> (outfit s))).
Proof.
  intros Ho Hstack Hvalid Hsize Hnext ->. eexists. split_and!; last first.
  - cbn [while]. rewrite (loop_body_valid σ s l pt p) by done. cbv zeta.
    cbn [order set_policy]. rewrite Ho. rewrite decide_False by done.
    change (get_next_piece_type (set_policy (this s) ?q) pt)
      with (get_next_piece_type (this s) pt). rewrite Hnext. reflexivity.
  - apply is_valid_outfit_config.
  - done.
  - done.
Qed.

Lemma while_complete fuel σ s l pt p :
  order (this s) = PieceType.all →
  to_explore s = l ++ [(pt, p)] →
  (is_valid_outfit (policy (this s)) (<[pt:=p]> (outfit s))).1 = Ok true →
  size (<[pt:=p]> (outfit s)) = 4 →
  ∃ self', while (S fuel) σ s = Some (Ok (<[pt:=p]> (outfit s)), self').
Proof.
  intros Ho Hstack Hvalid Hsize. eexists. cbn [while].
  rewrite (loop_body_valid σ s l pt p) by done. cbv zeta.
  cbn [order set_policy]. rewrite Ho. by rewrite decide_True by done.
Qed.

Lemma is_valid_outfit_sub p p0 (o : gmap PieceType.t Piece) t b j s :
  same_config p p0 → consistent p0 →
  (OutfitPolicy.is_valid p0 (Some t) (Some b) (Some j) (Some s)).1 = Ok true →
  sub_piece (o !! PieceType.top) (Some t) →
  sub_piece (o !! PieceType.bottom) (Some b) →
  sub_piece (o !! PieceType.jacket) (Some j) →
  sub_piece (o !! PieceType.shoe) (Some s) →
  (is_valid_outfit p o).1 = Ok true.
Proof.
  intros Hc Hcons Hvalid Ht Hb Hj Hs. unfold is_valid_outfit.
  rewrite (is_valid_same_config p p0) by done.
  by eapply is_valid_sub.
Qed.

End first_path.

Local Ltac solve_sub :=
  unfold sub_piece; simplify_map_eq; auto.

Local Ltac solve_size :=
  rewrite size_outfit; simplify_map_eq; done.

(** X9: the search explores last candidates first: when the last candidate
    of each of the four lists together form an outfit the policy accepts,
    that outfit is returned, at the fourth loop test. *)
Theorem search_returns_last_candidates fuel σ self lt lb lj ls t b j s :
  Outfit.order self = PieceType.all →
  consistent (Outfit.policy self) →
  candidates σ self PieceType.top = lt ++ [t] →
  candidates σ self PieceType.bottom = lb ++ [b] →
  candidates σ self PieceType.jacket = lj ++ [j] →
  candidates σ self PieceType.shoe = ls ++ [s] →
  (OutfitPolicy.is_valid (Outfit.policy self)
     (Some t) (Some b) (Some j) (Some s)).1 = Ok true →
  4 ≤ fuel →
  ∃ self',
    Outfit.get_valid_outfit fuel σ self
    = Some (Ok (<[PieceType.shoe := s]>
                  (<[PieceType.jacket := j]>
                     (<[PieceType.bottom := b]>
                        (<[PieceType.top := t]> ∅)))), self').
Proof.
  intros Ho Hcons Ht Hb Hj Hs Hvalid Hfuel.
  enough (∃ self',
    Outfit.get_valid_outfit 4 σ self
    = Some (Ok (<[PieceType.shoe := s]>
                  (<[PieceType.jacket := j]>
                     (<[PieceType.bottom := b]>
                        (<[PieceType.top := t]> ∅)))), self'))
    as [self' Hsearch].
  { exists self'. replace fuel with (4 + (fuel - 4)) by lia.
    by apply get_valid_outfit_more_fuel. }
  unfold candidates in Ht, Hb, Hj, Hs.
  rewrite get_valid_outfit_while by done. unfold candidates.
  rewrite Ht, fmap_app. cbn [fmap list_fmap].
  edestruct (while_descend 3 σ) as (self1 & Ho1 & Hl1 & Hc1 & ->);
    [done|reflexivity| |
     |by rewrite get_next_piece_type_all by done|
     reflexivity|].
  { cbn [Outfit.this Outfit.outfit].
    eapply is_valid_outfit_sub; [apply same_config_refl|done..|
      solve_sub|solve_sub|solve_sub|solve_sub]. }
  { cbn [Outfit.outfit]. solve_size. }
  cbn [Outfit.this Outfit.outfit] in *.
  rewrite Hb, fmap_app, (assoc_L (++)). cbn [fmap list_fmap].
  edestruct (while_descend 2 σ) as (self2 & Ho2 & Hl2 & Hc2 & ->);
    [done|reflexivity| |
     |by rewrite get_next_piece_type_all by done|
     reflexivity|].
  { cbn [Outfit.this Outfit.outfit].
    eapply is_valid_outfit_sub; [done|done..|
      solve_sub|solve_sub|solve_sub|solve_sub]. }
  { cbn [Outfit.outfit]. solve_size. }
  cbn [Outfit.this Outfit.outfit] in *.
  rewrite Hl1, Hj, fmap_app, (assoc_L (++)). cbn [fmap list_fmap].
  edestruct (while_descend 1 σ) as (self3 & Ho3 & Hl3 & Hc3 & ->);
    [done|reflexivity| |
     |by rewrite get_next_piece_type_all by done|
     reflexivity|].
  { cbn [Outfit.this Outfit.outfit].
    eapply is_valid_outfit_sub;
      [by eapply same_config_trans|done..|
       solve_sub|solve_sub|solve_sub|solve_sub]. }
  { cbn [Outfit.outfit]. solve_size. }
  cbn [Outfit.this Outfit.outfit] in *.
  rewrite Hl2, Hl1, Hs, fmap_app, (assoc_L (++)). cbn [fmap list_fmap].
  eapply (while_complete 0 σ); [done|reflexivity| |].
  { cbn [Outfit.this Outfit.outfit].
    eapply is_valid_outfit_sub;
      [do 2 (eapply same_config_trans; [done|]); done|done..|
       solve_sub|solve_sub|solve_sub|solve_sub]. }
  { cbn [Outfit.outfit]. solve_size. }
Qed.

Section program.

Lemma init_Raise σ warmth comfort fancy required_piece closet e :
  OutfitPolicy.init σ warmth comfort fancy required_piece closet = Raise e →
  ∃ msg, e = ArgumentTypeError msg.
Proof.
  unfold OutfitPolicy.init.
  destruct (truthy_str required_piece); [|done].
  pose proof (get_piece_type_from_name_spec σ
    (λ pt, match pt with
           | PieceType.top => tops closet
           | PieceType.bottom => bottoms closet
           | PieceType.jacket => jackets closet
           | PieceType.shoe => shoes closet
           end) (default "" required_piece)) as Hspec.
  destruct (OutfitPolicy.get_piece_type_from_name _ _ _) as [C|e']; [done|].
  intros [= <-]. by destruct Hspec as [? _].
Qed.

Lemma randomized_candidates policy closet σ g pt :
  (∀ pt, closet_list closet pt < length σ) →
  let r := Outfit.randomize_piece_lists (Outfit.init policy closet)
             (mkWorld σ g) in
  candidates (heap r.2) r.1 pt ≡ₚ deref σ (closet_list closet pt).
Proof.
  intros Halloc r.
  destruct (randomize_fold PieceType.all (Outfit.init policy closet)
              (mkWorld σ g) NoDup_all Halloc) as (_ & Hin & _).
  by apply Hin, elem_of_all.
Qed.

Lemma iteration_bound_randomized policy closet σ g :
  (∀ pt, closet_list closet pt < length σ) →
  let r := Outfit.randomize_piece_lists (Outfit.init policy closet)
             (mkWorld σ g) in
  iteration_bound (heap r.2) r.1 = closet_bound σ closet.
Proof.
  intros Halloc r. subst r. unfold iteration_bound, closet_bound, weight.
  cbv zeta.
  by rewrite !(randomized_candidates policy closet σ g _ Halloc).
Qed.

Lemma randomize_piece_lists_keeps self w :
  Outfit.policy (Outfit.randomize_piece_lists self w).1 = Outfit.policy self
  ∧ Outfit.order (Outfit.randomize_piece_lists self w).1 = Outfit.order self.
Proof. apply randomize_piece_lists_frame. Qed.

Lemma generate_Ok fuel self w o self' t b j s :
  let r := Outfit.randomize_piece_lists self w in
  Outfit.order r.1 = PieceType.all →
  Outfit.get_valid_outfit fuel (heap r.2) r.1 = Some (Ok o, self') →
  o !! PieceType.top = Some t → o !! PieceType.bottom = Some b →
  o !! PieceType.jacket = Some j → o !! PieceType.shoe = Some s →
  Outfit.generate fuel self w
  = Some (Ok ([name t; name b; name j; name s],
              [filename t; filename b; filename j; filename s])).
Proof.
  unfold Outfit.generate. destruct (Outfit.randomize_piece_lists self w).
  cbn. intros -> -> Ht Hb Hj Hs. cbn. by rewrite Ht, Hb, Hj, Hs.
Qed.

End program.

(** X10: with the closet's lists in the store and fuel for [closet_bound]
    loop tests, the program ends in one of three ways: the argument error of
    the constructor, the exhaustion error, or the names and the file names,
    in the order top, bottom, jacket, shoe, of four pieces taken from the
    closet's lists of these types that the constructed policy accepts
    together. *)
Theorem main_outcome σ g warmth comfort fancy include closet fuel :
  (∀ pt, closet_list closet pt < length σ) →
  closet_bound σ closet ≤ fuel →
  let out :=
    Program.main fuel warmth comfort fancy include closet (mkWorld σ g) in
  (∃ msg, out = Some (Raise (ArgumentTypeError msg)))
  ∨ out = Some (Raise exhausted)
  ∨ ∃ policy t b j s,
      out = Some (Ok ([name t; name b; name j; name s],
                      [filename t; filename b; filename j; filename s]))
      ∧ OutfitPolicy.init σ warmth comfort fancy include closet = Ok policy
      ∧ t ∈ deref σ (tops closet)
      ∧ b ∈ deref σ (bottoms closet)
      ∧ j ∈ deref σ (jackets closet)
      ∧ s ∈ deref σ (shoes closet)
      ∧ (OutfitPolicy.is_valid policy (Some t) (Some b) (Some j) (Some s)).1
        = Ok true.
Proof.
  intros Halloc Hfuel out. subst out. unfold Program.main. cbn [heap].
  destruct (OutfitPolicy.init σ warmth comfort fancy include closet)
    as [policy|e] eqn:Hinit.
  2:{ left. destruct (init_Raise _ _ _ _ _ _ _ Hinit) as [msg ->]. by exists msg. }
  right.
  set (r := Outfit.randomize_piece_lists (Outfit.init policy closet)
              (mkWorld σ g)).
  destruct (randomize_piece_lists_keeps (Outfit.init policy closet)
              (mkWorld σ g)) as [Hpol Horder].
  fold r in Hpol, Horder.
  change (Outfit.policy (Outfit.init policy closet)) with policy in Hpol.
  change (Outfit.order (Outfit.init policy closet)) with PieceType.all
    in Horder.
  rewrite <-(iteration_bound_randomized policy closet σ g Halloc) in Hfuel.
  fold r in Hfuel.
  destruct (get_valid_outfit_terminates (heap r.2) r.1 Horder fuel Hfuel)
    as [[found self'] Hsearch].
  destruct (get_valid_outfit_Some _ _ Horder fuel _ _ Hsearch)
    as [->|[(o & -> & Hcomplete & Hvalid)|(e & o & _ & Hraise)]].
  - left. by apply (generate_Raise _ _ _ _ _ Hsearch).
  - right.
    destruct (Hcomplete PieceType.top) as (t & Ht & Htin).
    destruct (Hcomplete PieceType.bottom) as (b & Hb & Hbin).
    destruct (Hcomplete PieceType.jacket) as (j & Hj & Hjin).
    destruct (Hcomplete PieceType.shoe) as (s & Hs & Hsin).
    exists policy, t, b, j, s.
    split; [by apply (generate_Ok _ _ _ _ _ _ _ _ _ Horder Hsearch)|].
    split; [done|].
    subst r.
    rewrite (randomized_candidates policy closet σ g PieceType.top Halloc)
      in Htin.
    rewrite (randomized_candidates policy closet σ g PieceType.bottom Halloc)
      in Hbin.
    rewrite (randomized_candidates policy closet σ g PieceType.jacket Halloc)
      in Hjin.
    rewrite (randomized_candidates policy closet σ g PieceType.shoe Halloc)
      in Hsin.
    split_and!; try done.
    unfold Outfit.is_valid_outfit in Hvalid.
    by rewrite Hpol, Ht, Hb, Hj, Hs in Hvalid.
  - rewrite Hpol in Hraise.
    destruct (is_valid_ok policy (o !! PieceType.top) (o !! PieceType.bottom)
                (o !! PieceType.jacket) (o !! PieceType.shoe)) as [bv Hbv].
    { by eapply init_consistent. }
    unfold Outfit.is_valid_outfit in Hraise. congruence.
Qed.

(** X11: when the policy was constructed with a non-empty required name, an
    outfit returned by a search under this policy holds, in the piece type
    the name was resolved to, a piece of that name. *)
Theorem required_piece_in_outfit σ' σ warmth comfort fancy n closet policy
    self fuel outfit self' :
  n ≠ "" →
  OutfitPolicy.init σ' warmth comfort fancy (Some n) closet = Ok policy →
  Outfit.order self = PieceType.all →
  Outfit.policy self = policy →
  Outfit.get_valid_outfit fuel σ self = Some (Ok outfit, self') →
  ∃ C p,
    OutfitPolicy.required_piece_type policy = Some C
    ∧ outfit !! C = Some p
    ∧ name p = n.
Proof.
  intros Hn Hinit Horder Hpol Hsearch.
  pose proof (init_consistent _ _ _ _ _ _ _ Hinit) as Hcons.
  rewrite init_required in Hinit by done.
  destruct (OutfitPolicy.get_piece_type_from_name σ' (closet_list closet) n)
    as [C|e]; [|done].
  cbn in Hinit. injection Hinit as Hpolicy.
  destruct (get_valid_outfit_Some σ self Horder fuel _ _ Hsearch)
    as [?|[(o & [= <-] & Hcomplete & Hvalid)|(e & o & ? & _)]]; [done| |done].
  destruct (Hcomplete C) as (p & Hp & _). exists C, p.
  rewrite Hpol in Hvalid. unfold Outfit.is_valid_outfit in Hvalid.
  apply is_valid_accepted in Hvalid; [|done].
  destruct Hvalid as (_ & _ & _ & _ & _ & Hreq).
  subst policy. cbn in Hreq. split; [done|]. split; [done|].
  specialize (Hreq (truthy_str_Some n Hn) C p eq_refl).
  assert (Some (name p) = Some n) as [= ->]; [|done].
  apply Hreq. by destruct C.
Qed.

Section first_subtree.
Import Outfit.
Variable σ : store.
Variable self0 : Outfit.t.
Hypothesis consistent0 : consistent (policy self0).
Variables t b : Piece.

Lemma snoc_cases {A} (l : list A) : l = [] ∨ ∃ l' x, l = l' ++ [x].
Proof.
  induction l as [|x l _] using rev_ind; [by left|right; by eexists _, _].
Qed.

Lemma loop_body_invalid s l pt p :
  to_explore s = l ++ [(pt, p)] →
  (is_valid_outfit (policy (this s)) (<[pt:=p]> (outfit s))).1 = Ok false →
  loop_body σ s
  = Continue (mkLoop
      (set_policy (this s)
         (is_valid_outfit (policy (this s)) (<[pt:=p]> (outfit s))).2)
      l (delete pt (<[pt:=p]> (outfit s)))).
Proof.
  intros Hstack Hvalid. unfold loop_body.
  rewrite (proj2 (pop_snoc _ _ _) Hstack). cbv zeta.
  destruct (is_valid_outfit _ _) as [v pol]. cbn in Hvalid. by subst v.
Qed.

Lemma promising_step s :
  promising σ self0 t b s →
  match loop_body σ s with
  | Continue s' => promising σ self0 t b s'
  | Return r _ =>
      ∃ o, r = Ok o ∧ o !! PieceType.top = Some t
           ∧ o !! PieceType.bottom = Some b
  end.
Proof.
  intros (Ho & Hl & Hc & L & J & S' & Hstack & Ht & Hb & Hs & Hj & Hahead).
  destruct (snoc_cases S') as [->|(S'' & s1 & ->)].
  - destruct Hahead as [(jc & sh & _ & Hsh & _)|(j & sh & Hjin & Hsh & Hvalid)];
      [by apply elem_of_nil in Hsh|].
    destruct (snoc_cases J) as [->|(J' & j1 & ->)];
      [by apply elem_of_nil in Hjin|].
    cbn [fmap list_fmap] in Hstack. rewrite app_nil_r, fmap_app in Hstack.
    cbn [fmap list_fmap] in Hstack. rewrite (assoc_L (++)) in Hstack.
    set (o := <[PieceType.jacket:=j1]> (outfit s)).
    destruct (is_valid_ok (policy self0) (o !! PieceType.top)
                (o !! PieceType.bottom) (o !! PieceType.jacket)
                (o !! PieceType.shoe) consistent0) as [v Hv].
    assert ((is_valid_outfit (policy (this s)) o).1 = Ok v) as Hv'.
    { unfold is_valid_outfit. by rewrite (is_valid_same_config _ _ _ _ _ _ Hc). }
    assert (o !! PieceType.top = Some t) as Hot by (subst o; by simplify_map_eq).
    assert (o !! PieceType.bottom = Some b) as Hob
      by (subst o; by simplify_map_eq).
    assert (o !! PieceType.jacket = Some j1) as Hoj
      by (subst o; by simplify_map_eq).
    assert (o !! PieceType.shoe = None) as Hos by (subst o; by simplify_map_eq).
    destruct v.
    + rewrite (loop_body_valid σ s _ PieceType.jacket j1 Hstack Hv'). cbv zeta.
      cbn [order set_policy]. rewrite Ho.
      rewrite decide_False
        by (fold o; rewrite size_outfit, Hot, Hob, Hoj, Hos; cbn; lia).
      change (get_next_piece_type (set_policy (this s) ?q) PieceType.jacket)
        with (get_next_piece_type (this s) PieceType.jacket).
      rewrite get_next_piece_type_all by done.
      split; [done|]. split; [done|].
      split; [eapply same_config_trans; [apply is_valid_outfit_config|done]|].
      exists L, J', (candidates σ self0 PieceType.shoe).
      cbn [to_explore outfit piece_type_to_list set_policy]. fold o.
      split; [by rewrite Hl, <-(assoc_L (++))|].
      split_and!; try done.
      apply elem_of_app in Hjin as [Hjin| ->%list_elem_of_singleton].
      * right. by exists j, sh.
      * left. by exists j1, sh.
    + rewrite (loop_body_invalid s _ PieceType.jacket j1 Hstack Hv').
      split; [done|]. split; [done|].
      split; [eapply same_config_trans; [apply is_valid_outfit_config|done]|].
      exists L, J', []. cbn [to_explore outfit]. fold o.
      split; [by rewrite app_nil_r|].
      rewrite !lookup_delete_ne by done. split_and!; try done.
      right. exists j, sh. split; [|done].
      apply elem_of_app in Hjin as [Hjin| ->%list_elem_of_singleton]; [done|].
      assert ((is_valid_outfit (policy self0) o).1 = Ok true) as Hacc.
      { eapply is_valid_outfit_sub; [apply same_config_refl|done..| | | |].
        - rewrite Hot. by right.
        - rewrite Hob. by right.
        - rewrite Hoj. by right.
        - rewrite Hos. by left. }
      unfold is_valid_outfit in Hacc. congruence.
  - destruct (Hj ltac:(by destruct S'')) as [jc Hjc].
    rewrite fmap_app in Hstack. cbn [fmap list_fmap] in Hstack.
    rewrite !(assoc_L (++)) in Hstack.
    set (o := <[PieceType.shoe:=s1]> (outfit s)).
    destruct (is_valid_ok (policy self0) (o !! PieceType.top)
                (o !! PieceType.bottom) (o !! PieceType.jacket)
                (o !! PieceType.shoe) consistent0) as [v Hv].
    assert ((is_valid_outfit (policy (this s)) o).1 = Ok v) as Hv'.
    { unfold is_valid_outfit. by rewrite (is_valid_same_config _ _ _ _ _ _ Hc). }
    assert (o !! PieceType.top = Some t) as Hot by (subst o; by simplify_map_eq).
    assert (o !! PieceType.bottom = Some b) as Hob
      by (subst o; by simplify_map_eq).
    assert (o !! PieceType.jacket = Some jc) as Hoj
      by (subst o; by simplify_map_eq).
    assert (o !! PieceType.shoe = Some s1) as Hos
      by (subst o; by simplify_map_eq).
    destruct v.
    + rewrite (loop_body_valid σ s _ PieceType.shoe s1 Hstack Hv'). cbv zeta.
      cbn [order set_policy]. rewrite Ho.
      rewrite decide_True
        by (fold o; by rewrite size_outfit, Hot, Hob, Hoj, Hos).
      by exists o.
    + rewrite (loop_body_invalid s _ PieceType.shoe s1 Hstack Hv').
      split; [done|]. split; [done|].
      split; [eapply same_config_trans; [apply is_valid_outfit_config|done]|].
      exists L, J, S''. cbn [to_explore outfit]. fold o.
      split; [by rewrite <-(assoc_L (++))|].
      rewrite lookup_delete_eq, !lookup_delete_ne by done.
      subst o. rewrite !lookup_insert_ne by done.
      split_and!; try done; try (by eexists).
      destruct Hahead as [(jc' & sh & Hjc' & Hsh & Hvalid)|?]; [|by right].
      left. exists jc', sh. split; [done|]. split; [|done].
      apply elem_of_app in Hsh as [Hsh| ->%list_elem_of_singleton]; [done|].
      assert (jc' = jc) as -> by congruence.
      unfold is_valid_outfit in Hv. rewrite Hot, Hob, Hoj, Hos in Hv.
      congruence.
Qed.

Lemma promising_while fuel s r self' :
  promising σ self0 t b s → while fuel σ s = Some (r, self') →
  ∃ o, r = Ok o ∧ o !! PieceType.top = Some t ∧ o !! PieceType.bottom = Some b.
Proof.
  revert s. induction fuel as [|fuel IH]; intros s Hs; [done|]. cbn.
  pose proof (promising_step s Hs) as Hstep.
  destruct (loop_body σ s) as [s'|r' self'']; [by apply IH|].
  by intros [= <- <-].
Qed.

End first_subtree.

(** X12: below the first top and the first bottom it explores, the search
    is complete: when the last candidates of the top and bottom lists go
    with some jacket and some shoe of the closet in an outfit the policy
    accepts, the search returns an outfit with this top and this bottom.  In
    particular it is complete on closets with one top and one bottom. *)
Theorem search_finds_outfit_below_first_bottom fuel σ self lt lb t b j s :
  Outfit.order self = PieceType.all →
  consistent (Outfit.policy self) →
  candidates σ self PieceType.top = lt ++ [t] →
  candidates σ self PieceType.bottom = lb ++ [b] →
  j ∈ candidates σ self PieceType.jacket →
  s ∈ candidates σ self PieceType.shoe →
  (OutfitPolicy.is_valid (Outfit.policy self)
     (Some t) (Some b) (Some j) (Some s)).1 = Ok true →
  iteration_bound σ self ≤ fuel →
  ∃ outfit self',
    Outfit.get_valid_outfit fuel σ self = Some (Ok outfit, self')
    ∧ outfit !! PieceType.top = Some t
    ∧ outfit !! PieceType.bottom = Some b.
Proof.
  intros Ho Hcons Ht Hb Hj Hs Hvalid Hfuel.
  destruct (get_valid_outfit_terminates σ self Ho fuel Hfuel)
    as [[found self'] Hsearch].
  assert (∃ f, fuel = S (S f)) as [f ->].
  { exists (fuel - 2). unfold iteration_bound, weight in Hfuel.
    cbv zeta in Hfuel. rewrite Ht, Hb, !length_app in Hfuel. cbn in Hfuel.
    nia. }
  rewrite Hsearch.
  rewrite get_valid_outfit_while in Hsearch by done.
  unfold candidates in Ht, Hb. unfold candidates at 1 in Hsearch.
  rewrite Ht, fmap_app in Hsearch. cbn [fmap list_fmap] in Hsearch.
  edestruct (while_descend (S f) σ) as (self1 & Ho1 & Hl1 & Hc1 & Hstep1);
    [| | | | |reflexivity|rewrite Hstep1 in Hsearch; clear Hstep1];
    [done|reflexivity| | |by rewrite get_next_piece_type_all by done|].
  { cbn [Outfit.this Outfit.outfit].
    eapply is_valid_outfit_sub; [apply same_config_refl|done..|
      solve_sub|solve_sub|solve_sub|solve_sub]. }
  { cbn [Outfit.outfit]. solve_size. }
  cbn [Outfit.this Outfit.outfit] in *.
  rewrite Hb, fmap_app, (assoc_L (++)) in Hsearch.
  cbn [fmap list_fmap] in Hsearch.
  edestruct (while_descend f σ) as (self2 & Ho2 & Hl2 & Hc2 & Hstep2);
    [| | | | |reflexivity|rewrite Hstep2 in Hsearch; clear Hstep2];
    [done|reflexivity| | |by rewrite get_next_piece_type_all by done|].
  { cbn [Outfit.this Outfit.outfit].
    eapply is_valid_outfit_sub; [done|done..|
      solve_sub|solve_sub|solve_sub|solve_sub]. }
  { cbn [Outfit.outfit]. solve_size. }
  cbn [Outfit.this Outfit.outfit] in *.
  match type of Hsearch with
  | Outfit.while _ _ ?s2 = _ => assert (promising σ self t b s2) as Hahead
  end; [|destruct (promising_while σ self Hcons t b f _ _ _ Hahead Hsearch)
           as (o & -> & Hot & Hob); by exists o, self'].
  unfold promising. cbn [Outfit.to_explore Outfit.outfit Outfit.this].
  split; [done|]. split; [by rewrite Hl2|].
  split; [by eapply same_config_trans|].
  eexists _, (candidates σ self PieceType.jacket), [].
  split; [by rewrite app_nil_r, Hl1|].
  split; [by simplify_map_eq|]. split; [by simplify_map_eq|].
  split; [by simplify_map_eq|]. split; [done|].
  right. by exists j, s.
Qed.

(** * The further statements at concrete closets *)

Lemma is_valid_accepts_iff_witness :
  ((OutfitPolicy.is_valid (twin_policy (Some 2%Z) None)
      (Some (plain "tee" "black")) (Some (plain "skirt" "blue")) None None).1
   = Ok true
   ↔ accepted (twin_policy (Some 2%Z) None)
       (Some (plain "tee" "black")) (Some (plain "skirt" "blue")) None None)
  ∧ ((OutfitPolicy.is_valid (twin_policy (Some 2%Z) None)
        (Some (plain "tee" "black")) (Some (plain "skirt" "blue")) None None).1
     = Ok false
     ↔ ¬ accepted (twin_policy (Some 2%Z) None)
         (Some (plain "tee" "black")) (Some (plain "skirt" "blue")) None None).
Proof.
  apply (is_valid_accepts_iff (twin_policy (Some 2%Z) None)).
  intros Hset. vm_compute in Hset. discriminate.
Defined.

Lemma is_valid_sub_assignment_witness :
  (OutfitPolicy.is_valid (twin_policy None None)
     (Some (plain "tee" "black")) None (Some (plain "blazer" "black")) None).1
  = Ok true.
Proof.
  apply (is_valid_sub_assignment (twin_policy None None)
           (Some (plain "tee" "black")) (Some (plain "skirt" "blue"))
           (Some (plain "blazer" "black")) (Some (plain "sneakers" "blue"))).
  - intros Hset. vm_compute in Hset. discriminate.
  - right. reflexivity.
  - left. reflexivity.
  - right. reflexivity.
  - left. reflexivity.
  - vm_compute. reflexivity.
Defined.

Lemma is_valid_never_raises_witness :
  ∃ b,
    (is_valid_call
       (after_calls (twin_policy None (Some ("denim", PieceType.bottom)))
          [mkCall (Some (plain "tee" "black")) None None None])
       (mkCall None (Some (plain "skirt" "blue")) None None)).1 = Ok b.
Proof.
  apply (is_valid_never_raises twin_store None None false (Some "denim")
           stale_closet).
  reflexivity.
Defined.

Lemma get_valid_outfit_frame_witness :
  ∃ found self',
    Outfit.get_valid_outfit 4 twin_store
      (Outfit.init (twin_policy None None) stale_closet)
    = Some (found, self')
    ∧ Outfit.order self' = PieceType.all
    ∧ Outfit.piece_type_to_list self' = closet_list stale_closet
    ∧ same_config (Outfit.policy self') (twin_policy None None).
Proof.
  eexists _, _. split; [vm_compute; reflexivity|].
  eapply (get_valid_outfit_frame 4 twin_store
            (Outfit.init (twin_policy None None) stale_closet));
    [reflexivity|vm_compute; reflexivity].
Defined.

Lemma empty_category_exhausts_witness :
  ∃ self',
    Outfit.get_valid_outfit 3 bare_store
      (Outfit.init (twin_policy None None) stale_closet)
    = Some (Raise exhausted, self').
Proof.
  apply (empty_category_exhausts 3 bare_store
           (Outfit.init (twin_policy None None) stale_closet)
           PieceType.bottom).
  - reflexivity.
  - intros Hset. vm_compute in Hset. discriminate.
  - reflexivity.
  - vm_compute. lia.
Defined.

Lemma returned_outfit_accepted_witness :
  ∃ t b j s,
    (<[PieceType.top := plain "tee" "black"]>
       (<[PieceType.bottom := plain "denim" "jeanblue"]>
          (<[PieceType.jacket := plain "denim" "jeanblue"]>
             (<[PieceType.shoe := plain "boots" "black"]>
                (∅ : gmap PieceType.t Piece))))) !! PieceType.top = Some t
    ∧ (<[PieceType.top := plain "tee" "black"]>
         (<[PieceType.bottom := plain "denim" "jeanblue"]>
            (<[PieceType.jacket := plain "denim" "jeanblue"]>
               (<[PieceType.shoe := plain "boots" "black"]>
                  (∅ : gmap PieceType.t Piece))))) !! PieceType.bottom = Some b
    ∧ (<[PieceType.top := plain "tee" "black"]>
         (<[PieceType.bottom := plain "denim" "jeanblue"]>
            (<[PieceType.jacket := plain "denim" "jeanblue"]>
               (<[PieceType.shoe := plain "boots" "black"]>
                  (∅ : gmap PieceType.t Piece))))) !! PieceType.jacket = Some j
    ∧ (<[PieceType.top := plain "tee" "black"]>
         (<[PieceType.bottom := plain "denim" "jeanblue"]>
            (<[PieceType.jacket := plain "denim" "jeanblue"]>
               (<[PieceType.shoe := plain "boots" "black"]>
                  (∅ : gmap PieceType.t Piece))))) !! PieceType.shoe = Some s
    ∧ accepted (twin_policy None None) (Some t) (Some b) (Some j) (Some s).
Proof.
  eapply (returned_outfit_accepted 4 twin_store
            (Outfit.init (twin_policy None None) stale_closet)).
  - reflexivity.
  - intros Hset. vm_compute in Hset. discriminate.
  - vm_compute. reflexivity.
Defined.

Lemma search_returns_last_candidates_witness :
  ∃ self',
    Outfit.get_valid_outfit 4
      [[plain "tee" "black"];
       [plain "chinos" "green"; plain "skirt" "blue"];
       [plain "parka" "green"; plain "blazer" "black"];
       [plain "sneakers" "blue"]]
      (Outfit.init (twin_policy None None) stale_closet)
    = Some (Ok (<[PieceType.shoe := plain "sneakers" "blue"]>
                  (<[PieceType.jacket := plain "blazer" "black"]>
                     (<[PieceType.bottom := plain "skirt" "blue"]>
                        (<[PieceType.top := plain "tee" "black"]> ∅)))), self').
Proof.
  apply (search_returns_last_candidates 4 _
           (Outfit.init (twin_policy None None) stale_closet)
           [] [plain "chinos" "green"] [plain "parka" "green"] []).
  - reflexivity.
  - intros Hset. vm_compute in Hset. discriminate.
  - reflexivity.
  - reflexivity.
  - reflexivity.
  - reflexivity.
  - vm_compute. reflexivity.
  - lia.
Defined.

Lemma main_outcome_witness :
  let out :=
    Program.main 12 (Some 2%Z) None false None stale_closet
      (mkWorld stale_store zeros) in
  (∃ msg, out = Some (Raise (ArgumentTypeError msg)))
  ∨ out = Some (Raise exhausted)
  ∨ ∃ policy t b j s,
      out = Some (Ok ([name t; name b; name j; name s],
                      [filename t; filename b; filename j; filename s]))
      ∧ OutfitPolicy.init stale_store (Some 2%Z) None false None stale_closet
        = Ok policy
      ∧ t ∈ deref stale_store (tops stale_closet)
      ∧ b ∈ deref stale_store (bottoms stale_closet)
      ∧ j ∈ deref stale_store (jackets stale_closet)
      ∧ s ∈ deref stale_store (shoes stale_closet)
      ∧ (OutfitPolicy.is_valid policy (Some t) (Some b) (Some j) (Some s)).1
        = Ok true.
Proof.
  apply (main_outcome stale_store zeros (Some 2%Z) None false None
           stale_closet 12).
  - intros pt. destruct pt; vm_compute; lia.
  - vm_compute. lia.
Defined.

Lemma required_piece_in_outfit_witness :
  ∃ C p,
    OutfitPolicy.required_piece_type
      (twin_policy None (Some ("denim", PieceType.bottom))) = Some C
    ∧ (<[PieceType.top := plain "tee" "black"]>
         (<[PieceType.bottom := plain "denim" "jeanblue"]>
            (<[PieceType.jacket := plain "denim" "jeanblue"]>
               (<[PieceType.shoe := plain "boots" "black"]>
                  (∅ : gmap PieceType.t Piece))))) !! C = Some p
    ∧ name p = "denim".
Proof.
  eapply (required_piece_in_outfit twin_store twin_store None None false
            "denim" stale_closet
            (twin_policy None (Some ("denim", PieceType.bottom)))
            (Outfit.init (twin_policy None (Some ("denim", PieceType.bottom)))
               stale_closet) 4).
  - discriminate.
  - reflexivity.
  - reflexivity.
  - reflexivity.
  - vm_compute. reflexivity.
Defined.

Lemma search_finds_outfit_below_first_bottom_witness :
  ∃ outfit self',
    Outfit.get_valid_outfit 12
      [[plain "tee" "black"];
       [plain "chinos" "green"; plain "skirt" "blue"];
       [plain "blazer" "black"; plain "parka" "green"];
       [plain "sneakers" "blue"]]
      (Outfit.init (twin_policy None None) stale_closet)
    = Some (Ok outfit, self')
    ∧ outfit !! PieceType.top = Some (plain "tee" "black")
    ∧ outfit !! PieceType.bottom = Some (plain "skirt" "blue").
Proof.
  apply (search_finds_outfit_below_first_bottom 12 _
           (Outfit.init (twin_policy None None) stale_closet)
           [] [plain "chinos" "green"] (plain "tee" "black")
           (plain "skirt" "blue") (plain "blazer" "black")
           (plain "sneakers" "blue")).
  - reflexivity.
  - intros Hset. vm_compute in Hset. discriminate.
  - reflexivity.
  - reflexivity.
  - apply list_elem_of_In. vm_compute. tauto.
  - apply list_elem_of_In. vm_compute. tauto.
  - vm_compute. reflexivity.
  - vm_compute. lia.
Defined.
